(** * ScriptGrammar: the "where" clause compiler of nova-value-toggle

    A shallow embedding of [resources/js/ScriptGrammar.js].  The class
    compiles the [wheres] of a query descriptor into a zero-argument
    predicate; the predicate reads column values through the grammar's
    [columnResolver] every time it is invoked.

    Layout of the development:
    - [JS]: the fragment of the JavaScript value semantics the class relies
      on ([==], [!=], the relational operators, [&&], [||],
      [Array.prototype.indexOf]);
    - [Grammar]: the class itself, method by method, in a state-and-exception
      monad over the grammar instance, the data the resolver reads, and the
      console;
    - the properties of the compiled predicates.

    Closures are functions of the state in which they are invoked: a closure
    that reads [this.columnResolver] in its body reads the field of the
    state it is run in, whereas anything computed while the closure is built
    is fixed in the closure. *)

From Stdlib Require Import String Ascii List ZArith QArith Bool Lia.
Import ListNotations.
Local Close Scope Q_scope.
Local Open Scope string_scope.
Local Open Scope Z_scope.

(* ===================================================================== *)
(** ** JavaScript values and operators *)
(* ===================================================================== *)

Module JS.

(** Strings are sequences of UTF-16 code units. *)
Definition CodeUnits : Type := list N.

(** The string whose code units are the characters of [s]: for ASCII text,
    the text itself. *)
Fixpoint units (s : string) : CodeUnits :=
  match s with
  | EmptyString => []
  | String c r => N_of_ascii c :: units r
  end.

(** Equality of strings, code unit by code unit. *)
Fixpoint units_eqb (a b : CodeUnits) : bool :=
  match a, b with
  | [], [] => true
  | c :: a', d :: b' => (c =? d)%N && units_eqb a' b'
  | _, _ => false
  end.

(** Numbers.  A double is modelled by its exact rational value; NaN and the
    two infinities are apart, and [+0] and [-0] are both [Fin 0] (no operator
    used by the class tells them apart).  The class performs no arithmetic,
    only comparisons, which are exact on doubles. *)
Inductive Number : Type :=
  | NaN
  | PosInf
  | NegInf
  | Fin (q : Q).

(** The scalar values a resolver hands back and a clause carries (objects
    and arrays are not among them). *)
Inductive Value : Type :=
  | VUndefined
  | VNull
  | VBool (b : bool)
  | VNumber (n : Number)
  | VStr (s : CodeUnits).

(** The string value with the given text. *)
Definition VString (s : string) : Value := VStr (units s).

(** The number with the integer value [z] (a double whenever [z] is at most
    [2 ^ 53] in magnitude). *)
Definition num (z : Z) : Value := VNumber (Fin (inject_Z z)).

(** *** Number comparison *)

(** [Number::equal]: NaN is equal to nothing. *)
Definition number_equal (x y : Number) : bool :=
  match x, y with
  | NaN, _ | _, NaN => false
  | PosInf, PosInf => true
  | NegInf, NegInf => true
  | Fin p, Fin q => Qeq_bool p q
  | _, _ => false
  end.

(** [Number::lessThan]: [None] is the specification's "undefined" answer,
    given when an operand is NaN. *)
Definition number_lessThan (x y : Number) : option bool :=
  match x, y with
  | NaN, _ | _, NaN => None
  | PosInf, _ => Some false
  | _, PosInf => Some true
  | _, NegInf => Some false
  | NegInf, _ => Some true
  | Fin p, Fin q => Some (negb (Qle_bool q p))
  end.

(** *** The Number value of a real number *)

(** [n / d] scaled by [2 ^ (- e)] and rounded down. *)
Definition floor_scaled (n d e : Z) : Z :=
  if 0 <=? e then n / (d * 2 ^ e) else (n * 2 ^ (- e)) / d.

(** The double nearest to the positive rational [n / d], ties going to the
    even significand: the significand has 53 bits at an exponent of at
    least -1074 (below that the value is subnormal, or rounds to 0), and a
    result of [2 ^ 1024] or more is [Infinity]. *)
Definition nearest_double (n d : Z) : Number :=
  let e0 := Z.log2 n - Z.log2 d - 52 in
  let e1 := if floor_scaled n d e0 <? 2 ^ 52 then e0 - 1 else e0 in
  let e := Z.max e1 (-1074) in
  let numerator := if 0 <=? e then n else n * 2 ^ (- e) in
  let denominator := if 0 <=? e then d * 2 ^ e else d in
  let f := numerator / denominator in
  let r := numerator mod denominator in
  let m :=
    if 2 * r <? denominator then f
    else if denominator <? 2 * r then f + 1
    else if Z.even f then f else f + 1 in
  if 0 <=? e then
    if 2 ^ 1024 <=? m * 2 ^ e then PosInf else Fin (inject_Z (m * 2 ^ e))
  else Fin (Qmake m (Z.to_pos (2 ^ (- e)))).

(** The Number value of the non-negative rational [n / d]. *)
Definition number_value (n d : Z) : Number :=
  if n =? 0 then Fin 0%Q else nearest_double n d.

(** *** StringToNumber *)

(** [StrWhiteSpaceChar]: white space and line terminators. *)
Definition is_whitespace (c : N) : bool :=
  let n := Z.of_N c in
  ((9 <=? n) && (n <=? 13)) || (n =? 32) || (n =? 160) || (n =? 5760)
  || ((8192 <=? n) && (n <=? 8202)) || (n =? 8232) || (n =? 8233)
  || (n =? 8239) || (n =? 8287) || (n =? 12288) || (n =? 65279).

Fixpoint trim_left (s : CodeUnits) : CodeUnits :=
  match s with
  | c :: r => if is_whitespace c then trim_left r else s
  | [] => []
  end.

Definition trim (s : CodeUnits) : CodeUnits :=
  rev (trim_left (rev (trim_left s))).

(** The value of a digit in the given radix. *)
Definition digit_value (radix : Z) (c : N) : option Z :=
  let n := Z.of_N c in
  let d :=
    if (48 <=? n) && (n <=? 57) then Some (n - 48)
    else if (97 <=? n) && (n <=? 122) then Some (n - 87)
    else if (65 <=? n) && (n <=? 90) then Some (n - 55)
    else None in
  match d with
  | Some v => if v <? radix then Some v else None
  | None => None
  end.

(** Reads the longest prefix of digits: the value read so far, the number of
    digits read, and the rest of the string. *)
Fixpoint read_digits (radix : Z) (s : CodeUnits) (acc : Z) (count : Z)
  : Z * Z * CodeUnits :=
  match s with
  | c :: r =>
      match digit_value radix c with
      | Some d => read_digits radix r (acc * radix + d) (count + 1)
      | None => (acc, count, s)
      end
  | [] => (acc, count, s)
  end.

(** [0x], [0o] and [0b] literals: digits only, at least one, no sign. *)
Definition non_decimal (radix : Z) (digits : CodeUnits) : Number :=
  match read_digits radix digits 0 0 with
  | (v, n, []) => if 0 <? n then number_value v 1 else NaN
  | _ => NaN
  end.

(** Is [c] the character [a]? *)
Definition is_char (c : N) (a : ascii) : bool := (c =? N_of_ascii a)%N.

(** [ExponentPart], when present: [e] or [E], an optional sign, digits. *)
Definition exponent_part (s : CodeUnits) : option Z :=
  match s with
  | [] => Some 0
  | c :: r =>
      if is_char c "e" || is_char c "E" then
        let '(neg, r') :=
          match r with
          | x :: t =>
              if is_char x "-" then (true, t)
              else if is_char x "+" then (false, t)
              else (false, r)
          | [] => (false, r)
          end in
        match read_digits 10 r' 0 0 with
        | (v, n, []) => if 0 <? n then Some (if neg then - v else v) else None
        | _ => None
        end
      else None
  end.

(** [StrUnsignedDecimalLiteral]: [Infinity], or digits with an optional
    fraction and an optional exponent, at least one digit in all. *)
Definition unsigned_decimal (s : CodeUnits) : Number :=
  if units_eqb s (units "Infinity") then PosInf
  else
    let '(int_v, int_n, r1) := read_digits 10 s 0 0 in
    let '(mant, frac_n, r2) :=
      match r1 with
      | c :: t => if is_char c "." then read_digits 10 t int_v 0
                  else (int_v, 0, r1)
      | [] => (int_v, 0, r1)
      end in
    if 0 <? int_n + frac_n then
      match exponent_part r2 with
      | Some e =>
          let k := e - frac_n in
          if 0 <=? k then number_value (mant * 10 ^ k) 1
          else number_value mant (10 ^ (- k))
      | None => NaN
      end
    else NaN.

Definition number_negate (n : Number) : Number :=
  match n with
  | NaN => NaN
  | PosInf => NegInf
  | NegInf => PosInf
  | Fin q => Fin (- q)%Q
  end.

(** [StringToNumber]: surrounding white space is dropped, the empty string is
    0, anything outside the numeric-literal grammar is NaN, and the
    mathematical value of a literal is rounded to the nearest double (the
    rounding of the engines; the language leaves literals of more than 20
    significant digits some freedom). *)
Definition StringToNumber (s : CodeUnits) : Number :=
  match trim s with
  | [] => Fin 0%Q
  | c :: r =>
      if is_char c "+" then unsigned_decimal r
      else if is_char c "-" then number_negate (unsigned_decimal r)
      else if is_char c "0" then
        match r with
        | x :: digits =>
            if is_char x "x" || is_char x "X" then non_decimal 16 digits
            else if is_char x "o" || is_char x "O" then non_decimal 8 digits
            else if is_char x "b" || is_char x "B" then non_decimal 2 digits
            else unsigned_decimal (c :: r)
        | [] => unsigned_decimal (c :: r)
        end
      else unsigned_decimal (c :: r)
  end.

(** *** Conversions *)

Definition ToNumber (v : Value) : Number :=
  match v with
  | VUndefined => NaN
  | VNull => Fin 0%Q
  | VBool true => Fin 1%Q
  | VBool false => Fin 0%Q
  | VNumber n => n
  | VStr s => StringToNumber s
  end.

Definition ToBoolean (v : Value) : bool :=
  match v with
  | VUndefined | VNull => false
  | VBool b => b
  | VNumber NaN => false
  | VNumber (Fin q) => negb (Qeq_bool q 0%Q)
  | VNumber _ => true
  | VStr s => negb (units_eqb s [])
  end.

(** *** Equality *)

(** [x === y] *)
Definition strict_equals (x y : Value) : bool :=
  match x, y with
  | VUndefined, VUndefined => true
  | VNull, VNull => true
  | VBool a, VBool b => Bool.eqb a b
  | VNumber a, VNumber b => number_equal a b
  | VStr a, VStr b => units_eqb a b
  | _, _ => false
  end.

(** [x == y] *)
Definition loose_equals (x y : Value) : bool :=
  match x, y with
  | VUndefined, (VUndefined | VNull) => true
  | VNull, (VUndefined | VNull) => true
  | VUndefined, _ | VNull, _ | _, VUndefined | _, VNull => false
  | VBool a, VBool b => Bool.eqb a b
  | VStr a, VStr b => units_eqb a b
  | _, _ => number_equal (ToNumber x) (ToNumber y)
  end.

(** [x != y] *)
Definition loose_not_equals (x y : Value) : bool := negb (loose_equals x y).

(** *** Relational operators *)

(** Strings are ordered code unit by code unit, a proper prefix first. *)
Fixpoint string_lessThan (a b : CodeUnits) : bool :=
  match a, b with
  | _, [] => false
  | [], _ :: _ => true
  | c :: a', d :: b' =>
      if (c <? d)%N then true
      else if (d <? c)%N then false
      else string_lessThan a' b'
  end.

(** [IsLessThan(x, y)]; [None] is "undefined". *)
Definition IsLessThan (x y : Value) : option bool :=
  match x, y with
  | VStr a, VStr b => Some (string_lessThan a b)
  | _, _ => number_lessThan (ToNumber x) (ToNumber y)
  end.

(** [x < y] *)
Definition less_than (x y : Value) : bool :=
  match IsLessThan x y with Some r => r | None => false end.

(** [x > y] *)
Definition greater_than (x y : Value) : bool :=
  match IsLessThan y x with Some r => r | None => false end.

(** [x <= y] *)
Definition less_equal (x y : Value) : bool :=
  match IsLessThan y x with Some r => negb r | None => false end.

(** [x >= y] *)
Definition greater_equal (x y : Value) : bool :=
  match IsLessThan x y with Some r => negb r | None => false end.

(** *** Logical operators on already evaluated operands *)

(** [x && y] *)
Definition and (x y : Value) : Value := if ToBoolean x then y else x.

(** [x || y] *)
Definition or (x y : Value) : Value := if ToBoolean x then x else y.

(** *** Arrays *)

(** [array.indexOf(v)]: the first index holding a value strictly equal to
    [v], or -1. *)
Fixpoint indexOf_from (array : list Value) (v : Value) (k : Z) : Z :=
  match array with
  | [] => (-1)%Z
  | x :: rest => if strict_equals x v then k else indexOf_from rest v (k + 1)%Z
  end.

Definition indexOf (array : list Value) (v : Value) : Z :=
  indexOf_from array v 0.

End JS.

(* ===================================================================== *)
(** ** Query descriptors *)
(* ===================================================================== *)

(** A clause descriptor, as the query builder produces it: [type] selects the
    compiler method, [boolean] joins the clause to its predecessors, and the
    remaining fields are read by the method that [type] selects. *)
Module Where.
Record t : Type := make {
  type : string;
  boolean : string;
  column : string;
  operator : string;
  value : JS.Value;
  values : list JS.Value
}.
End Where.

(** A query descriptor; [wheres] is [None] when the field is absent. *)
Module Query.
Record t : Type := make {
  wheres : option (list Where.t)
}.
End Query.

(* ===================================================================== *)
(** ** The ScriptGrammar class *)
(* ===================================================================== *)

Module Grammar.
Import JS.

(** The exceptions the class can raise: calling or reading a property of
    something that is [undefined]. *)
Inductive Error : Type :=
  | TypeError.

(** How a call ends: with a value, or with a thrown exception. *)
Inductive Completion (A : Type) : Type :=
  | Return (a : A)
  | Throw (e : Error).
Arguments Return {A} a.
Arguments Throw {A} e.

Section ScriptGrammar.

(** The data context behind the resolver (a row, a counter, a log, ...).
    The grammar never touches it; only the resolver does. *)
Context {W : Type}.

(** A column resolver is a function of the caller: it maps a column name to
    a value, and may read and change the caller's data while doing so.
    The resolvers modelled return normally and leave the grammar and the
    console alone; one that throws, logs or replaces the grammar's resolver
    while it is called is outside the model. *)
Definition Resolver : Type := string -> W -> Value * W.

(** What a method can observe or change: the grammar instance's
    [columnResolver] field, the caller's data, and the console. *)
Record State : Type := mkState {
  columnResolver : Resolver;
  world : W;
  console : list string
}.

Definition set_world (st : State) (w : W) : State :=
  mkState (columnResolver st) w (console st).

(** Computations: a completion and the state the computation leaves, which
    is kept when an exception is thrown. *)
Definition M (A : Type) : Type := State -> Completion A * State.

Definition ret {A} (a : A) : M A := fun st => (Return a, st).

Definition bind {A B} (m : M A) (k : A -> M B) : M B :=
  fun st =>
    match m st with
    | (Return a, st') => k a st'
    | (Throw e, st') => (Throw e, st')
    end.

Definition throw {A} (e : Error) : M A := fun st => (Throw e, st).

Notation "x <- m ;; k" := (bind m (fun x => k))
  (at level 61, m at next level, right associativity).
Notation "m ;;; k" := (bind m (fun _ => k))
  (at level 61, right associativity).

(** [console.error(message)] *)
Definition console_error (message : string) : M unit :=
  fun st =>
    (Return tt,
     mkState (columnResolver st) (world st) (console st ++ [message])).

(** [array.map(f)], for an [f] with effects. *)
Fixpoint array_map {A B} (f : A -> M B) (array : list A) : M (list B) :=
  match array with
  | [] => ret []
  | x :: rest =>
      y <- f x ;;
      ys <- array_map f rest ;;
      ret (y :: ys)
  end.

(** [array.reduce(callback, initialValue)] *)
Fixpoint array_reduce {A B} (callback : B -> A -> M B) (array : list A)
    (initialValue : B) : M B :=
  match array with
  | [] => ret initialValue
  | x :: rest =>
      result <- callback initialValue x ;;
      array_reduce callback rest result
  end.

(** An evaluator is a zero-argument function; every evaluator the class
    builds returns the result of a comparison, a boolean. *)
Definition Evaluator : Type := M bool.

(** What a clause compiler method returns: a function, or [undefined]. *)
Inductive Callback : Type :=
  | Function (f : Evaluator)
  | Undefined.

(** A compiled clause: [{'boolean': ..., 'callback': ...}]. *)
Record Clause : Type := mkClause {
  boolean : string;
  callback : Callback
}.

(** The compiled predicate. *)
Definition Predicate : Type := M Value.

(** *** constructor and setColumnResolver *)

(** [options.columnResolver || function() { return null; }]; the data and an
    empty console complete the initial state. *)
Definition constructor (options : option Resolver) (data : W) : State :=
  mkState
    (match options with
     | Some resolver => resolver
     | None => fun _ w => (VNull, w)
     end)
    data [].

Definition setColumnResolver (resolver : Resolver) : M unit :=
  fun st => (Return tt, mkState resolver (world st) (console st)).

(** *** column *)

(** The accessor reads [this.columnResolver] when it is called, not when it
    is built. *)
Definition column (name : string) : M Value :=
  fun st =>
    let (v, w) := columnResolver st name (world st) in
    (Return v, set_world st w).

(** *** The clause compilers *)

Definition whereBasic (query : Query.t) (where_ : Where.t) : Callback :=
  let value := Where.value where_ in
  let column := column (Where.column where_) in
  let operator := Where.operator where_ in
  if String.eqb operator "=" then
    Function (v <- column ;; ret (loose_equals v value))
  else if String.eqb operator "!=" then
    Function (v <- column ;; ret (loose_not_equals v value))
  else if String.eqb operator "<>" then
    Function (v <- column ;; ret (loose_not_equals v value))
  else if String.eqb operator ">" then
    Function (v <- column ;; ret (greater_than v value))
  else if String.eqb operator ">=" then
    Function (v <- column ;; ret (greater_equal v value))
  else if String.eqb operator "<" then
    Function (v <- column ;; ret (less_than v value))
  else if String.eqb operator "<=" then
    Function (v <- column ;; ret (less_equal v value))
  else Undefined.

Definition whereIn (query : Query.t) (where_ : Where.t) : Callback :=
  let values := Where.values where_ in
  let column := column (Where.column where_) in
  Function (v <- column ;; ret (greater_equal (num (indexOf values v)) (num 0))).

Definition whereNotIn (query : Query.t) (where_ : Where.t) : Callback :=
  let values := Where.values where_ in
  let column := column (Where.column where_) in
  Function (v <- column ;; ret (loose_equals (num (indexOf values v)) (num (-1)))).

Definition whereNull (query : Query.t) (where_ : Where.t) : Callback :=
  let column := column (Where.column where_) in
  Function (v <- column ;;
            ret (greater_equal (num (indexOf [VString ""; VNull] v)) (num 0))).

Definition whereNotNull (query : Query.t) (where_ : Where.t) : Callback :=
  let column := column (Where.column where_) in
  Function (v <- column ;;
            ret (loose_equals (num (indexOf [VString ""; VNull] v)) (num (-1)))).

(** *** compileWheresToArray *)

(** [this[name]] for a [name] that starts with "where": the five clause
    compilers are the only such properties of the class. *)
Definition method (name : string)
  : option (Query.t -> Where.t -> Callback) :=
  if String.eqb name "whereBasic" then Some whereBasic
  else if String.eqb name "whereIn" then Some whereIn
  else if String.eqb name "whereNotIn" then Some whereNotIn
  else if String.eqb name "whereNull" then Some whereNull
  else if String.eqb name "whereNotNull" then Some whereNotNull
  else None.

Definition is_undefined {A} (x : option A) : bool :=
  match x with None => true | Some _ => false end.

Definition is_function {A} (x : option A) : bool :=
  match x with Some _ => true | None => false end.

Definition when (b : bool) (m : M unit) : M unit :=
  if b then m else ret tt.

(** The body of the arrow function mapped over [query.wheres]. *)
Definition compileWhere (query : Query.t) (where_ : Where.t) : M Clause :=
  let callback := method ("where" ++ Where.type where_) in
  when (is_undefined callback)
    (console_error ("Method ScriptGrammar::where" ++ Where.type where_
                    ++ "() is not defined.")) ;;;
  when (negb (is_function callback))
    (console_error ("Method ScriptGrammar::where" ++ Where.type where_
                    ++ "() is not a function.")) ;;;
  match callback with
  | Some compiler =>
      ret (mkClause (Where.boolean where_) (compiler query where_))
  | None => throw TypeError
  end.

Definition compileWheresToArray (query : Query.t) : M (list Clause) :=
  match Query.wheres query with
  | Some wheres => array_map (compileWhere query) wheres
  | None => throw TypeError
  end.

(** *** evaluateWhereClauses *)

(** [clause.callback()] *)
Definition call (f : Callback) : M Value :=
  match f with
  | Function evaluator => b <- evaluator ;; ret (VBool b)
  | Undefined => throw TypeError
  end.

(** The function handed to [reduce]. *)
Definition combine (result : Value) (clause : Clause) : M Value :=
  if strict_equals result VNull then call (callback clause)
  else
    value <- call (callback clause) ;;
    if String.eqb (boolean clause) "and" then ret (JS.and result value)
    else if String.eqb (boolean clause) "or" then ret (JS.or result value)
    else ret VUndefined.

Definition evaluateWhereClauses (query : Query.t) (clauses : list Clause)
  : Predicate :=
  array_reduce combine clauses VNull.

(** *** compileWheres and compile *)

Definition compileWheres (query : Query.t) : M Predicate :=
  match Query.wheres query with
  | None => ret (ret (VBool true))
  | Some wheres =>
      if (length wheres =? 0)%nat then ret (ret (VBool true))
      else
        clauses <- compileWheresToArray query ;;
        if (length clauses =? 0)%nat then ret (ret (VBool true))
        else ret (evaluateWhereClauses query clauses)
  end.

Definition compile (query : Query.t) : M Predicate := compileWheres query.

End ScriptGrammar.

Arguments Resolver W : clear implicits.
Arguments State W : clear implicits.
Arguments M W A : clear implicits.

(* ===================================================================== *)
(** ** Vocabulary of the properties *)
(* ===================================================================== *)

(** The clause kinds and comparison operators of the data model. *)
Definition known_type (type : string) : bool :=
  existsb (String.eqb type) ["Basic"; "In"; "NotIn"; "Null"; "NotNull"].

Definition known_operator (operator : string) : bool :=
  existsb (String.eqb operator) ["="; "!="; "<>"; ">"; ">="; "<"; "<="].

(** A clause descriptor of a known kind, with a known operator when the kind
    is Basic. *)
Definition well_formed (where_ : Where.t) : bool :=
  known_type (Where.type where_)
  && (if String.eqb (Where.type where_) "Basic"
      then known_operator (Where.operator where_)
      else true).

(** The comparison each operator stands for: loose equality for [=], its
    negation for [!=] and [<>], the ordering comparisons for the rest. *)
Definition comparison (operator : string) : option (Value -> Value -> bool) :=
  if String.eqb operator "=" then Some loose_equals
  else if String.eqb operator "!=" then Some loose_not_equals
  else if String.eqb operator "<>" then Some loose_not_equals
  else if String.eqb operator ">" then Some greater_than
  else if String.eqb operator ">=" then Some greater_equal
  else if String.eqb operator "<" then Some less_than
  else if String.eqb operator "<=" then Some less_equal
  else None.

(** Membership of a value in a list of values, by strict equality. *)
Definition member (v : Value) (values : list Value) : bool :=
  existsb (fun x => strict_equals x v) values.

(** What a clause descriptor says of a column value: the comparison of a
    Basic clause, membership for In and NotIn, emptiness for Null and
    NotNull. *)
Definition holds (where_ : Where.t) (v : Value) : bool :=
  let type := Where.type where_ in
  if String.eqb type "Basic" then
    match comparison (Where.operator where_) with
    | Some cmp => cmp v (Where.value where_)
    | None => false
    end
  else if String.eqb type "In" then member v (Where.values where_)
  else if String.eqb type "NotIn" then negb (member v (Where.values where_))
  else if String.eqb type "Null" then member v [VString ""; VNull]
  else if String.eqb type "NotNull" then negb (member v [VString ""; VNull])
  else false.

(** Two values of the same JavaScript type. *)
Definition same_type (x y : Value) : bool :=
  match x, y with
  | VUndefined, VUndefined => true
  | VNull, VNull => true
  | VBool _, VBool _ => true
  | VNumber _, VNumber _ => true
  | VStr _, VStr _ => true
  | _, _ => false
  end.

(** The value one step of the fold leaves in the accumulator, given the
    boolean the clause's evaluator returned. *)
Definition combine_value (result : Value) (connective : string) (b : bool)
  : Value :=
  if strict_equals result VNull then VBool b
  else if String.eqb connective "and" then JS.and result (VBool b)
  else if String.eqb connective "or" then JS.or result (VBool b)
  else VUndefined.

(** A boolean or [undefined]. *)
Definition boolean_or_undefined (v : Value) : Prop :=
  v = VUndefined \/ exists b, v = VBool b.

(** The accumulator after a list of clauses, given each clause's connective
    and the boolean its evaluator returned. *)
Definition combine_values (result : Value) (steps : list (string * bool))
  : Value :=
  fold_left (fun acc step => combine_value acc (fst step) (snd step))
    steps result.

Section Vocabulary.
Context {W : Type}.

(** The value the current resolver gives for a column, and the state in
    which that one call to the resolver leaves the caller's data. *)
Definition resolve (st : State W) (name : string) : Value :=
  fst (columnResolver st name (world st)).

Definition after_resolve (st : State W) (name : string) : State W :=
  set_world st (snd (columnResolver st name (world st))).

(** One call to the resolver per name, in the order of the list. *)
Definition resolve_all (names : list string) (st : State W) : State W :=
  fold_left after_resolve names st.

(** An evaluator that reads one column and tests the value read. *)
Definition reads (name : string) (test : Value -> bool) : @Evaluator W :=
  bind (column name) (fun v => ret (test v)).

(** A clause compiled from a descriptor: it carries the descriptor's
    connective and an evaluator that reads the descriptor's column. *)
Definition compiled_from (where_ : Where.t) (clause : @Clause W) : Prop :=
  boolean clause = Where.boolean where_
  /\ exists test,
       callback clause = Function (reads (Where.column where_) test).

(** The messages logged for a clause kind that has no compiler method. *)
Definition not_defined (type : string) : list string :=
  ["Method ScriptGrammar::where" ++ type ++ "() is not defined.";
   "Method ScriptGrammar::where" ++ type ++ "() is not a function."].

Definition log (st : State W) (messages : list string) : State W :=
  mkState (columnResolver st) (world st) (console st ++ messages).

(** The left-to-right fold of the specification, over clauses given as a
    connective and an evaluator: the first evaluator's result is the
    accumulator, whatever the first connective; every later clause computes
    its value and joins it to the accumulator with its own connective. *)
Definition connect (connective : string) (accumulator value : bool) : bool :=
  if String.eqb connective "and" then accumulator && value
  else accumulator || value.

Fixpoint fold_from (accumulator : bool)
    (rest : list (string * @Evaluator W)) : M W bool :=
  match rest with
  | [] => ret accumulator
  | (connective, evaluator) :: rest' =>
      bind evaluator (fun value =>
        fold_from (connect connective accumulator value) rest')
  end.

Definition left_fold (first : string * @Evaluator W)
    (rest : list (string * @Evaluator W)) : M W bool :=
  bind (snd first) (fun value => fold_from value rest).

(** The compiled clause of a connective and an evaluator. *)
Definition clause_of (c : string * @Evaluator W) : Clause :=
  mkClause (fst c) (Function (snd c)).

(** A boolean result as a JavaScript value. *)
Definition as_value (m : M W bool) : M W Value :=
  bind m (fun b => ret (VBool b)).

(** The fold over booleans: the first value, then each later value joined
    with its connective. *)
Definition join (first : bool) (rest : list (string * bool)) : bool :=
  fold_left (fun acc step => connect (fst step) acc (snd step)) rest first.

(** The evaluators of a clause list run one after the other: the boolean
    each one returns, and the state the last one leaves. *)
Inductive runs
  : list (string * @Evaluator W) -> State W -> list bool -> State W -> Prop :=
  | runs_nil : forall st, runs [] st [] st
  | runs_cons : forall connective evaluator rest st b st1 bs st2,
      evaluator st = (Return b, st1) ->
      runs rest st1 bs st2 ->
      runs ((connective, evaluator) :: rest) st (b :: bs) st2.

(** A clause as compileWheresToArray builds it from a descriptor whose
    kind has a compiler method. *)
Definition built_from (query : Query.t) (where_ : Where.t)
    (clause : @Clause W) : Prop :=
  exists compiler,
    method ("where" ++ Where.type where_) = Some compiler
    /\ clause = mkClause (Where.boolean where_) (compiler query where_).

(** A resolver without effects on the caller's data. *)
Definition pure (resolver : Resolver W) : Prop :=
  forall name w, snd (resolver name w) = w.

(** The connective and the truth of each descriptor, read through the
    resolver one column after the other. *)
Fixpoint steps (wheres : list Where.t) (st : State W)
  : list (string * bool) :=
  match wheres with
  | [] => []
  | w :: rest =>
      (Where.boolean w, holds w (resolve st (Where.column w)))
      :: steps rest (after_resolve st (Where.column w))
  end.

End Vocabulary.

(** A resolver that counts its invocations in the caller's data and
    otherwise looks the column up in [row]. *)
Definition counting (row : string -> Value) : Resolver nat :=
  fun name count => (row name, S count).

(** *** Example data *)

(** A resolver without effects, looking the column up in [row]. *)
Definition fixed {W : Type} (row : string -> Value) : Resolver W :=
  fun name w => (row name, w).

(** A row with a [status] and an [age] column. *)
Definition person (status : string) (age : Z) : string -> Value :=
  fun name =>
    if String.eqb name "status" then VString status
    else if String.eqb name "age" then num age
    else VUndefined.

(** A row in which every column holds [v]. *)
Definition every_column (v : Value) : string -> Value := fun _ => v.

Definition basic (connective column operator : string) (value : Value)
  : Where.t :=
  Where.make "Basic" connective column operator value [].

Definition where_in (connective column : string) (values : list Value)
  : Where.t :=
  Where.make "In" connective column "" VUndefined values.

Definition where_null (type connective column : string) : Where.t :=
  Where.make type connective column "" VUndefined [].

(** [age = 30] *)
Definition age_is_30 : Query.t :=
  Query.make (Some [basic "and" "age" "=" (num 30)]).

(** [status = "active" and age >= 18] *)
Definition active_adult : Query.t :=
  Query.make (Some [basic "and" "status" "=" (VString "active");
                    basic "and" "age" ">=" (num 18)]).

(** A Basic clause with an operator the class does not know. *)
Definition name_like : Query.t :=
  Query.make (Some [basic "and" "name" "like" (VString "a%")]).

(** A clause of a kind the class does not know. *)
Definition name_between : Query.t :=
  Query.make (Some [Where.make "Between" "and" "age" "" VUndefined
                      [num 1; num 9]]).

(** [n >= 1] *)
Definition at_least_one : Query.t :=
  Query.make (Some [basic "and" "n" ">=" (num 1)]).

(** A resolver that hands out the number of calls made before this one. *)
Definition ticking : Resolver nat :=
  fun _ count => (num (Z.of_nat count), S count).

(* ===================================================================== *)
(** ** Facts about the JavaScript operators *)
(* ===================================================================== *)

Lemma greater_equal_num (k : Z) :
  greater_equal (num k) (num 0) = (0 <=? k).
Proof.
  unfold greater_equal, num; simpl.
  rewrite negb_involutive. unfold Qle_bool; simpl.
  now rewrite Z.mul_1_r.
Qed.

Lemma loose_equals_num (k j : Z) :
  loose_equals (num k) (num j) = (k =? j).
Proof.
  unfold loose_equals, num; simpl. unfold Qeq_bool; simpl.
  now rewrite !Z.mul_1_r.
Qed.

Lemma indexOf_from_range (array : list Value) (v : Value) :
  forall k, 0 <= k ->
    indexOf_from array v k = -1 \/ k <= indexOf_from array v k.
Proof.
  induction array as [|x rest IH]; intros k Hk; simpl.
  - now left.
  - destruct (strict_equals x v).
    + right; lia.
    + destruct (IH (k + 1)) as [E|E]; [lia | now left | right; lia].
Qed.

Lemma indexOf_from_member (array : list Value) (v : Value) :
  forall k, 0 <= k ->
    (0 <=? indexOf_from array v k) = member v array.
Proof.
  induction array as [|x rest IH]; intros k Hk; simpl.
  - reflexivity.
  - destruct (strict_equals x v); simpl.
    + now apply Z.leb_le.
    + apply IH; lia.
Qed.

(** [indexOf(v) >= 0] is membership by strict equality. *)
Lemma indexOf_found (array : list Value) (v : Value) :
  greater_equal (num (indexOf array v)) (num 0) = member v array.
Proof.
  rewrite greater_equal_num. now apply indexOf_from_member.
Qed.

(** [indexOf(v) == -1] is its negation. *)
Lemma indexOf_missing (array : list Value) (v : Value) :
  loose_equals (num (indexOf array v)) (num (-1)) = negb (member v array).
Proof.
  rewrite loose_equals_num, <- (indexOf_from_member array v 0) by lia.
  unfold indexOf.
  destruct (indexOf_from_range array v 0) as [E|E]; [lia | |].
  - now rewrite E.
  - destruct (Z.eqb_spec (indexOf_from array v 0) (-1)); [lia|].
    symmetry. apply negb_false_iff. now apply Z.leb_le.
Qed.

(** The only values strictly equal to the empty string or to [null]. *)
Lemma member_empty_or_null (v : Value) :
  member v [VString ""; VNull] = true <-> v = VString "" \/ v = VNull.
Proof.
  unfold member; simpl. split.
  - destruct v as [| |b|n|s]; simpl; try discriminate; auto.
    rewrite orb_false_r. intros H.
    destruct s; [now left | discriminate].
  - now intros [-> | ->].
Qed.

Lemma and_booleans (a b : bool) : JS.and (VBool a) (VBool b) = VBool (a && b).
Proof. now destruct a. Qed.

Lemma or_booleans (a b : bool) : JS.or (VBool a) (VBool b) = VBool (a || b).
Proof. now destruct a. Qed.

(** On integers the six comparisons are the comparisons of integers. *)
Lemma comparisons_on_integers (a b : Z) :
  loose_equals (num a) (num b) = (a =? b)
  /\ loose_not_equals (num a) (num b) = negb (a =? b)
  /\ greater_than (num a) (num b) = (b <? a)
  /\ greater_equal (num a) (num b) = (b <=? a)
  /\ less_than (num a) (num b) = (a <? b)
  /\ less_equal (num a) (num b) = (a <=? b).
Proof.
  unfold loose_not_equals. rewrite loose_equals_num.
  unfold greater_than, greater_equal, less_than, less_equal, num; simpl.
  unfold Qle_bool; simpl. rewrite !Z.mul_1_r, !negb_involutive.
  rewrite <- !Z.ltb_antisym. now repeat split.
Qed.

(** Strings are ordered by their first differing code unit, and a proper
    prefix comes first. *)
Lemma string_lessThan_first_difference (p a b : CodeUnits) (c d : N) :
  c <> d ->
  string_lessThan (p ++ c :: a)%list (p ++ d :: b)%list = (c <? d)%N.
Proof.
  intros H. induction p as [|x p IH]; cbn [app string_lessThan].
  - destruct (N.ltb_spec c d) as [L|L]; [reflexivity|].
    destruct (N.ltb_spec d c) as [L'|L']; [reflexivity | lia].
  - now rewrite N.ltb_irrefl.
Qed.

Lemma string_lessThan_prefix (p a : CodeUnits) (c : N) :
  string_lessThan p (p ++ c :: a)%list = true
  /\ string_lessThan (p ++ a)%list p = false.
Proof.
  induction p as [|x p [IH1 IH2]]; cbn [app string_lessThan].
  - split; [reflexivity | now destruct a].
  - now rewrite N.ltb_irrefl.
Qed.

Lemma number_lessThan_NaN (x : Number) :
  number_lessThan x NaN = None /\ number_lessThan NaN x = None.
Proof. now destruct x. Qed.

(** No ordering comparison holds of [undefined]. *)
Lemma IsLessThan_undefined (v : Value) :
  IsLessThan VUndefined v = None /\ IsLessThan v VUndefined = None.
Proof.
  split.
  - reflexivity.
  - destruct v; apply number_lessThan_NaN.
Qed.

Lemma units_eqb_sym (a : CodeUnits) :
  forall b, units_eqb a b = units_eqb b a.
Proof.
  induction a as [|c a IH]; intros [|d b]; try reflexivity.
  cbn [units_eqb]. now rewrite N.eqb_sym, IH.
Qed.

Lemma number_equal_sym (x y : Number) : number_equal x y = number_equal y x.
Proof.
  destruct x, y; try reflexivity. simpl. unfold Qeq_bool. apply Z.eqb_sym.
Qed.

Lemma strict_equals_sym (x y : Value) : strict_equals x y = strict_equals y x.
Proof.
  destruct x, y; try reflexivity; simpl.
  - now destruct b, b0.
  - apply number_equal_sym.
  - apply units_eqb_sym.
Qed.

(** On values of one type, loose and strict equality agree. *)
Lemma loose_equals_same_type (x y : Value) :
  same_type x y = true -> loose_equals x y = strict_equals x y.
Proof. destruct x, y; try discriminate; reflexivity. Qed.

(* ===================================================================== *)
(** ** Evaluators *)
(* ===================================================================== *)

Section Evaluators.
Context {W : Type}.
Implicit Types (st : State W) (query : Query.t).

Lemma column_run (name : string) st :
  column name st = (Return (resolve st name), after_resolve st name).
Proof.
  unfold column, resolve, after_resolve.
  now destruct (columnResolver st name (world st)).
Qed.

Lemma reads_run (name : string) (test : Value -> bool) st :
  reads name test st = (Return (test (resolve st name)), after_resolve st name).
Proof. unfold reads, bind. now rewrite column_run. Qed.

Lemma whereBasic_reads query (where_ : Where.t) (cmp : Value -> Value -> bool) :
  comparison (Where.operator where_) = Some cmp ->
  whereBasic (W:=W) query where_
  = Function (reads (Where.column where_) (fun v => cmp v (Where.value where_))).
Proof.
  unfold comparison, whereBasic; cbv zeta.
  repeat match goal with
         | |- context [String.eqb ?a ?b] => destruct (String.eqb a b)
         end;
    intros E; inversion E; reflexivity.
Qed.

Lemma whereBasic_unknown query (where_ : Where.t) :
  known_operator (Where.operator where_) = false ->
  whereBasic (W:=W) query where_ = Undefined.
Proof.
  unfold known_operator, whereBasic; cbv zeta; simpl.
  repeat match goal with
         | |- context [String.eqb ?a ?b] => destruct (String.eqb a b)
         end;
    simpl; intros E; try discriminate E; reflexivity.
Qed.

End Evaluators.

(* ===================================================================== *)
(** ** Compiling clause descriptors *)
(* ===================================================================== *)

Section Compilation.
Context {W : Type}.
Implicit Types (st : State W) (query : Query.t).

Lemma method_known (type : string) :
  known_type type = true -> exists compiler, method (W:=W) ("where" ++ type) = Some compiler.
Proof.
  unfold known_type, method; simpl.
  repeat match goal with
         | |- context [String.eqb type ?b] => destruct (String.eqb type b)
         end; simpl; intros E; try discriminate E; eauto.
Qed.

Lemma method_unknown (type : string) :
  known_type type = false -> method (W:=W) ("where" ++ type) = None.
Proof.
  unfold known_type, method; simpl.
  repeat match goal with
         | |- context [String.eqb type ?b] => destruct (String.eqb type b)
         end; simpl; intros E; try discriminate E; reflexivity.
Qed.

(** Every compiler method of a well-formed descriptor returns an evaluator
    that reads the descriptor's column. *)
Lemma method_well_formed query (where_ : Where.t) :
  well_formed where_ = true ->
  exists compiler test,
    method (W:=W) ("where" ++ Where.type where_) = Some compiler
    /\ compiler query where_ = Function (reads (Where.column where_) test).
Proof.
  unfold well_formed, known_type, method; simpl.
  destruct (String.eqb (Where.type where_) "Basic") eqn:EB.
  - simpl. intros K.
    assert (exists cmp, comparison (Where.operator where_) = Some cmp)
      as [cmp Hcmp].
    { revert K. unfold known_operator, comparison; simpl.
      repeat match goal with
             | |- context [String.eqb ?a ?b] => destruct (String.eqb a b)
             end; simpl; intros E; try discriminate E; eauto. }
    exists whereBasic, (fun v => cmp v (Where.value where_)).
    split; [reflexivity|]. now apply whereBasic_reads.
  - simpl.
    repeat match goal with
           | |- context [String.eqb (Where.type where_) ?b] =>
               destruct (String.eqb (Where.type where_) b)
           end; simpl; intros E; try discriminate E;
      eexists _, _; (split; [reflexivity|]); reflexivity.
Qed.

Lemma compileWhere_run query (where_ : Where.t) st :
  compileWhere query where_ st
  = match method ("where" ++ Where.type where_) with
    | Some compiler =>
        (Return (mkClause (Where.boolean where_) (compiler query where_)), st)
    | None => (Throw TypeError, log st (not_defined (Where.type where_)))
    end.
Proof.
  unfold compileWhere.
  destruct (method ("where" ++ Where.type where_)) as [compiler|]; simpl.
  - reflexivity.
  - unfold bind, console_error, throw, log, not_defined; simpl.
    now rewrite <- app_assoc.
Qed.

Lemma array_map_cons {A B} (f : A -> M W B) (x : A) (rest : list A) st :
  array_map f (x :: rest) st
  = match f x st with
    | (Return y, st1) =>
        match array_map f rest st1 with
        | (Return ys, st2) => (Return (y :: ys), st2)
        | (Throw e, st2) => (Throw e, st2)
        end
    | (Throw e, st1) => (Throw e, st1)
    end.
Proof.
  simpl. unfold bind.
  destruct (f x st) as [[y|e] st1]; [|reflexivity].
  now destruct (array_map f rest st1) as [[ys|e] st2].
Qed.

(** Compiling a list of descriptors never calls the resolver and never
    replaces it. *)
Lemma array_map_compileWhere_frame query (wheres : list Where.t) :
  forall st,
    world (snd (array_map (compileWhere query) wheres st)) = world st
    /\ columnResolver (snd (array_map (compileWhere query) wheres st))
       = columnResolver st.
Proof.
  induction wheres as [|w rest IH]; intros st.
  - now split.
  - rewrite array_map_cons, compileWhere_run.
    destruct (method ("where" ++ Where.type w)) as [compiler|].
    + specialize (IH st).
      destruct (array_map (compileWhere query) rest st) as [[cs|e] st'];
        exact IH.
    + now split.
Qed.

(** When it succeeds, it leaves the whole state as it found it. *)
Lemma array_map_compileWhere_return query (wheres : list Where.t) :
  forall st clauses st',
    array_map (compileWhere query) wheres st = (Return clauses, st') ->
    st' = st.
Proof.
  induction wheres as [|w rest IH]; intros st clauses st'.
  - simpl. unfold ret. now intros [= _ <-].
  - rewrite array_map_cons, compileWhere_run.
    destruct (method ("where" ++ Where.type w)) as [compiler|];
      [|discriminate].
    destruct (array_map (compileWhere query) rest st) as [[cs|e] st1] eqn:E;
      [|discriminate].
    intros [= _ <-]. eapply IH, E.
Qed.

(** What it returns does not depend on the state it runs in: no clause
    captures the resolver of the moment. *)
Lemma array_map_compileWhere_independent query (wheres : list Where.t) :
  forall st1 st2,
    fst (array_map (compileWhere query) wheres st1)
    = fst (array_map (compileWhere query) wheres st2).
Proof.
  induction wheres as [|w rest IH]; intros st1 st2.
  - reflexivity.
  - rewrite !array_map_cons, !compileWhere_run.
    destruct (method ("where" ++ Where.type w)) as [compiler|];
      [|reflexivity].
    specialize (IH st1 st2).
    destruct (array_map (compileWhere query) rest st1) as [[cs1|e1] s1],
             (array_map (compileWhere query) rest st2) as [[cs2|e2] s2];
      simpl in IH; inversion IH; reflexivity.
Qed.

(** The clause list of well-formed descriptors: one clause per descriptor,
    in order, each [compiled_from] its descriptor. *)
Lemma array_map_compileWhere_well_formed query (wheres : list Where.t) :
  forallb well_formed wheres = true ->
  exists clauses,
    Forall2 compiled_from wheres clauses
    /\ forall st, array_map (compileWhere query) wheres st = (Return clauses, st).
Proof.
  induction wheres as [|w rest IH]; cbn [forallb].
  - intros _. exists []. now split.
  - intros H. apply andb_true_iff in H as [Hw Hrest].
    destruct (IH Hrest) as (cs & HF & Hrun).
    destruct (method_well_formed query w Hw) as (compiler & test & Hm & Hc).
    exists (mkClause (Where.boolean w) (compiler query w) :: cs). split.
    + constructor; [|exact HF]. split; [reflexivity|]. now exists test.
    + intros st. now rewrite array_map_cons, compileWhere_run, Hm, Hrun.
Qed.

End Compilation.

(* ===================================================================== *)
(** ** The fold of evaluateWhereClauses *)
(* ===================================================================== *)

Section Folding.
Context {W : Type}.
Implicit Types (st : State W) (query : Query.t).

Lemma array_reduce_cons {A B} (f : B -> A -> M W B) (x : A) (rest : list A)
    (initialValue : B) st :
  array_reduce f (x :: rest) initialValue st
  = match f initialValue x st with
    | (Return result, st1) => array_reduce f rest result st1
    | (Throw e, st1) => (Throw e, st1)
    end.
Proof. reflexivity. Qed.

Lemma call_run (evaluator : @Evaluator W) st :
  call (Function evaluator) st
  = match evaluator st with
    | (Return b, st1) => (Return (VBool b), st1)
    | (Throw e, st1) => (Throw e, st1)
    end.
Proof. reflexivity. Qed.

Lemma call_reads (name : string) (test : Value -> bool) st :
  call (Function (reads name test)) st
  = (Return (VBool (test (resolve st name))), after_resolve st name).
Proof. now rewrite call_run, reads_run. Qed.

Lemma as_value_bind {A} (m : M W A) (k : A -> M W bool) st :
  as_value (bind m k) st
  = match m st with
    | (Return a, st1) => as_value (k a) st1
    | (Throw e, st1) => (Throw e, st1)
    end.
Proof.
  unfold as_value, bind. now destruct (m st) as [[a|e] st1].
Qed.

(** A single clause: the predicate is the clause's evaluator. *)
Lemma evaluateWhereClauses_single query (clause : @Clause W) st :
  evaluateWhereClauses query [clause] st = call (callback clause) st.
Proof.
  unfold evaluateWhereClauses. rewrite array_reduce_cons.
  unfold combine. cbn [strict_equals].
  now destruct (call (callback clause) st) as [[r|e] st1].
Qed.

(** One step of the fold on a boolean accumulator. *)
Lemma combine_boolean (accumulator : bool) (connective : string)
    (evaluator : @Evaluator W) st :
  connective = "and" \/ connective = "or" ->
  combine (VBool accumulator) (mkClause connective (Function evaluator)) st
  = match evaluator st with
    | (Return value, st1) =>
        (Return (VBool (connect connective accumulator value)), st1)
    | (Throw e, st1) => (Throw e, st1)
    end.
Proof.
  intros H. unfold combine. cbn [strict_equals callback boolean].
  unfold bind. rewrite call_run.
  destruct (evaluator st) as [[value|e] st1]; [|reflexivity].
  unfold connect, ret.
  destruct H as [-> | ->]; cbn [String.eqb Ascii.eqb Bool.eqb];
    now rewrite ?and_booleans, ?or_booleans.
Qed.

Lemma array_reduce_fold_from (rest : list (string * @Evaluator W)) :
  Forall (fun c => fst c = "and" \/ fst c = "or") rest ->
  forall (accumulator : bool) st,
    array_reduce combine (map clause_of rest) (VBool accumulator) st
    = as_value (fold_from accumulator rest) st.
Proof.
  induction 1 as [|[connective evaluator] rest Hc _ IH]; intros accumulator st.
  - reflexivity.
  - cbn [map]. rewrite array_reduce_cons. unfold clause_of at 1.
    cbn [fst snd] in *. rewrite combine_boolean by exact Hc.
    cbn [fold_from]. rewrite as_value_bind.
    destruct (evaluator st) as [[value|e] st1]; [|reflexivity].
    apply IH.
Qed.

(** Whatever the accumulator and the connective, one step of the fold over
    a compiled clause calls the resolver once, for the clause's column. *)
Lemma combine_compiled_from (where_ : Where.t) (clause : @Clause W)
    (result : Value) st :
  compiled_from where_ clause ->
  exists result',
    combine result clause st
    = (Return result', after_resolve st (Where.column where_)).
Proof.
  intros (_ & test & Hcb). unfold combine. rewrite Hcb.
  destruct (strict_equals result VNull).
  - rewrite call_reads. eauto.
  - unfold bind. rewrite call_reads.
    repeat match goal with
           | |- context [String.eqb ?a ?b] => destruct (String.eqb a b)
           end; unfold ret; eauto.
Qed.

Lemma array_reduce_eager (wheres : list Where.t) (clauses : list (@Clause W)) :
  Forall2 compiled_from wheres clauses ->
  forall (result : Value) st,
  exists result',
    array_reduce combine clauses result st
    = (Return result', resolve_all (map Where.column wheres) st).
Proof.
  induction 1 as [|w c ws cs Hwc _ IH]; intros result st.
  - exists result. reflexivity.
  - rewrite array_reduce_cons.
    destruct (combine_compiled_from w c result st Hwc) as (r1 & ->).
    apply IH.
Qed.

(** *** compile *)

Lemma compile_run query (wheres : list Where.t) st :
  Query.wheres query = Some wheres -> wheres <> [] ->
  compile query st
  = match array_map (compileWhere query) wheres st with
    | (Return clauses, st1) =>
        (Return (if (length clauses =? 0)%nat then ret (VBool true)
                 else evaluateWhereClauses query clauses), st1)
    | (Throw e, st1) => (Throw e, st1)
    end.
Proof.
  intros Hw Hne. unfold compile, compileWheres, compileWheresToArray.
  rewrite Hw. destruct wheres as [|w rest]; [congruence|].
  cbn [length Nat.eqb]. unfold bind.
  destruct (array_map (compileWhere query) (w :: rest) st) as [[cs|e] st1];
    [|reflexivity].
  now destruct (length cs =? 0)%nat.
Qed.

Lemma compile_empty query st :
  Query.wheres query = None \/ Query.wheres query = Some [] ->
  compile query st = (Return (ret (VBool true)), st).
Proof.
  unfold compile, compileWheres. now intros [-> | ->].
Qed.

Lemma wheres_cases query :
  (Query.wheres query = None \/ Query.wheres query = Some [])
  \/ exists wheres, Query.wheres query = Some wheres /\ wheres <> [].
Proof.
  destruct (Query.wheres query) as [[|w rest]|]; auto.
  right. exists (w :: rest). split; [reflexivity | discriminate].
Qed.

(** Compilation never calls the resolver and never replaces it. *)
Lemma compile_frame query st :
  world (snd (compile query st)) = world st
  /\ columnResolver (snd (compile query st)) = columnResolver st.
Proof.
  destruct (wheres_cases query) as [H | (ws & Hw & Hne)].
  - rewrite compile_empty by exact H. now split.
  - rewrite (compile_run query ws st Hw Hne).
    pose proof (array_map_compileWhere_frame query ws st) as F.
    now destruct (array_map (compileWhere query) ws st) as [[cs|e] st1].
Qed.

Lemma compile_return query st (predicate : @Predicate W) st' :
  compile query st = (Return predicate, st') -> st' = st.
Proof.
  destruct (wheres_cases query) as [H | (ws & Hw & Hne)].
  - rewrite compile_empty by exact H. now intros [= _ <-].
  - rewrite (compile_run query ws st Hw Hne).
    destruct (array_map (compileWhere query) ws st) as [[cs|e] st1] eqn:E;
      [|discriminate].
    intros [= _ <-]. eapply array_map_compileWhere_return, E.
Qed.

Lemma compile_independent query st1 st2 :
  fst (compile query st1) = fst (compile query st2).
Proof.
  destruct (wheres_cases query) as [H | (ws & Hw & Hne)].
  - now rewrite !compile_empty by exact H.
  - rewrite (compile_run query ws st1 Hw Hne), (compile_run query ws st2 Hw Hne).
    pose proof (array_map_compileWhere_independent query ws st1 st2) as I.
    destruct (array_map (compileWhere query) ws st1) as [[cs1|e1] s1],
             (array_map (compileWhere query) ws st2) as [[cs2|e2] s2];
      simpl in I; inversion I; reflexivity.
Qed.

Lemma compile_well_formed query (wheres : list Where.t) :
  Query.wheres query = Some wheres -> wheres <> [] ->
  forallb well_formed wheres = true ->
  exists clauses,
    Forall2 compiled_from wheres clauses
    /\ forall st,
         compile query st = (Return (evaluateWhereClauses query clauses), st).
Proof.
  intros Hw Hne Hwf.
  destruct (array_map_compileWhere_well_formed (W:=W) query wheres Hwf)
    as (cs & HF & Hrun).
  exists cs. split; [exact HF|]. intros st.
  rewrite (compile_run query wheres st Hw Hne), Hrun.
  destruct HF; [congruence | reflexivity].
Qed.

(** With a counting resolver the count grows by one per column read. *)
Lemma resolve_all_counting (row : string -> Value) (names : list string) :
  forall st : State nat,
    columnResolver st = counting row ->
    world (resolve_all names st) = (world st + length names)%nat.
Proof.
  induction names as [|name rest IH]; intros st Hr.
  - simpl. lia.
  - change (resolve_all (name :: rest) st)
      with (resolve_all rest (after_resolve st name)).
    rewrite IH by exact Hr.
    unfold after_resolve. rewrite Hr. simpl. lia.
Qed.

End Folding.

(* ===================================================================== *)
(** ** Properties of the compiled predicates *)
(* ===================================================================== *)

(** C3: a query whose [wheres] field is absent, or whose clause sequence is
    empty, compiles to a predicate that returns [true] on every invocation,
    in whatever state (so for whatever resolver) it is invoked. *)
Theorem compile_without_wheres :
  forall (W : Type) (query : Query.t) (st : State W),
    Query.wheres query = None \/ Query.wheres query = Some [] ->
    exists predicate,
      compile query st = (Return predicate, st)
      /\ forall st' : State W, predicate st' = (Return (VBool true), st').
Proof.
  intros W query st H. exists (ret (VBool true)). split.
  - now apply compile_empty.
  - reflexivity.
Qed.

Lemma compile_without_wheres_witness :
  (Query.wheres (Query.make None) = None
   \/ Query.wheres (Query.make None) = Some [])
  /\ exists predicate,
       compile (Query.make None) (constructor None 0%nat)
       = (Return predicate, constructor None 0%nat)
       /\ forall st' : State nat, predicate st' = (Return (VBool true), st').
Proof.
  split.
  - left. reflexivity.
  - apply (compile_without_wheres nat (Query.make None)). left. reflexivity.
Defined.

(** C4: for a Basic clause whose operator is one of [=], [!=], [<>], [>],
    [>=], [<], [<=], the compiled evaluator, when invoked, calls the
    resolver of that moment once for the clause's column and returns the
    operator's comparison of the resolved value with the clause's value:
    loose equality for [=], its negation for [!=] and [<>], the ordering
    comparisons for the others.  The comparisons are JavaScript's: on
    integers they are the integer comparisons; strings are ordered by their
    first differing code unit, a proper prefix first; a string compared
    with a number is converted to the nearest double first, and a
    comparison with [undefined] fails.  The equality is not the strict one:
    the string "30" equals the number 30.  The predicate compiled for
    [age = 30] returns [true] when the resolver gives 30 and [false] when it
    gives 31. *)
Theorem whereBasic_applies_operator :
  (forall (W : Type) (query : Query.t) (where_ : Where.t) (st : State W),
      known_operator (Where.operator where_) = true ->
      exists cmp evaluator,
        comparison (Where.operator where_) = Some cmp
        /\ whereBasic query where_ = Function evaluator
        /\ evaluator st
           = (Return (cmp (resolve st (Where.column where_))
                         (Where.value where_)),
              after_resolve st (Where.column where_)))
  /\ (comparison "=" = Some loose_equals
      /\ comparison "!=" = Some loose_not_equals
      /\ comparison "<>" = Some loose_not_equals
      /\ comparison ">" = Some greater_than
      /\ comparison ">=" = Some greater_equal
      /\ comparison "<" = Some less_than
      /\ comparison "<=" = Some less_equal)
  /\ (loose_equals (VString "30") (num 30) = true
      /\ strict_equals (VString "30") (num 30) = false)
  /\ (forall a b : Z,
        loose_equals (num a) (num b) = (a =? b)
        /\ loose_not_equals (num a) (num b) = negb (a =? b)
        /\ greater_than (num a) (num b) = (b <? a)
        /\ greater_equal (num a) (num b) = (b <=? a)
        /\ less_than (num a) (num b) = (a <? b)
        /\ less_equal (num a) (num b) = (a <=? b))
  /\ (forall (p a b : CodeUnits) (c d : N),
        (c <> d ->
         less_than (VStr (p ++ c :: a)%list) (VStr (p ++ d :: b)%list) = (c <? d)%N
         /\ greater_than (VStr (p ++ c :: a)%list) (VStr (p ++ d :: b)%list)
            = (d <? c)%N
         /\ loose_equals (VStr (p ++ c :: a)%list) (VStr (p ++ d :: b)%list) = false)
        /\ less_than (VStr p) (VStr (p ++ c :: a)%list) = true
        /\ less_equal (VStr p) (VStr p) = true
        /\ greater_equal (VStr p) (VStr p) = true
        /\ loose_equals (VStr p) (VStr p) = true)
  /\ (less_than (VString "10") (VString "9") = true
      /\ less_than (VString "10") (num 9) = false
      /\ greater_than (VString "10") (num 9) = true
      /\ loose_equals (VString "9007199254740993") (num 9007199254740992)
         = true
      /\ greater_equal (num 0) (VString "1e-400") = true
      /\ less_than (num 1) (VString "abc") = false
      /\ greater_equal (num 1) (VString "abc") = false
      /\ less_than VUndefined (num 1) = false
      /\ greater_equal VUndefined (num 1) = false
      /\ loose_not_equals VUndefined (num 1) = true
      /\ loose_equals VNull VUndefined = true
      /\ loose_equals VNull (num 0) = false
      /\ greater_equal VNull (num 0) = true)
  /\ (forall (W : Type) (st : State W),
        exists predicate,
          compile age_is_30 st = (Return predicate, st)
          /\ (forall st' : State W,
                resolve st' "age" = num 30 ->
                fst (predicate st') = Return (VBool true))
          /\ (forall st' : State W,
                resolve st' "age" = num 31 ->
                fst (predicate st') = Return (VBool false))).
Proof.
  split; [|split; [|split; [|split; [|split; [|split]]]]].
  - intros W query w st K.
    assert (exists cmp, comparison (Where.operator w) = Some cmp)
      as [cmp Hcmp].
    { revert K. unfold known_operator, comparison; simpl.
      repeat match goal with
             | |- context [String.eqb ?a ?b] => destruct (String.eqb a b)
             end; simpl; intros E; try discriminate E; eauto. }
    exists cmp. eexists. split; [exact Hcmp|]. split.
    + apply whereBasic_reads, Hcmp.
    + now rewrite reads_run.
  - repeat split.
  - split; reflexivity.
  - apply comparisons_on_integers.
  - intros p a b c d.
    destruct (string_lessThan_prefix p a c) as [P1 _].
    destruct (string_lessThan_prefix p [] c) as [_ P2].
    rewrite app_nil_r in P2.
    assert (R : units_eqb p p = true).
    { clear. induction p as [|x p IH]; [reflexivity|].
      cbn [units_eqb]. now rewrite N.eqb_refl. }
    unfold less_than, greater_than, less_equal, greater_equal, loose_equals,
      IsLessThan.
    rewrite P1, P2, R. repeat split.
    + now apply string_lessThan_first_difference.
    + apply string_lessThan_first_difference. congruence.
    + clear -H. induction p as [|x p IH]; cbn [app units_eqb].
      * apply N.eqb_neq in H. now rewrite H.
      * now rewrite N.eqb_refl.
  - repeat split; vm_compute; reflexivity.
  - intros W st.
    exists (evaluateWhereClauses age_is_30
              [mkClause "and"
                 (Function (reads "age" (fun v => loose_equals v (num 30))))]).
    split; [reflexivity|].
    split; intros st' H;
      rewrite evaluateWhereClauses_single; cbn [callback];
      rewrite call_reads, H; reflexivity.
Qed.

Lemma whereBasic_applies_operator_witness :
  known_operator (Where.operator (basic "and" "age" ">=" (num 18))) = true
  /\ exists cmp evaluator,
       comparison (Where.operator (basic "and" "age" ">=" (num 18)))
       = Some cmp
       /\ whereBasic (Query.make None) (basic "and" "age" ">=" (num 18))
          = Function evaluator
       /\ evaluator (constructor (Some (counting (person "active" 17))) 0%nat)
          = (Return
               (cmp (resolve
                       (constructor (Some (counting (person "active" 17)))
                          0%nat)
                       (Where.column (basic "and" "age" ">=" (num 18))))
                    (Where.value (basic "and" "age" ">=" (num 18)))),
             after_resolve
               (constructor (Some (counting (person "active" 17))) 0%nat)
               (Where.column (basic "and" "age" ">=" (num 18)))).
Proof.
  split.
  - reflexivity.
  - apply (proj1 whereBasic_applies_operator nat). reflexivity.
Defined.

(** C5: for every column, list of values and state (hence resolver), the
    evaluators compiled for an In and for a NotIn clause over the same
    descriptor make the same single call to the resolver, and the NotIn
    evaluator returns the negation of what the In evaluator returns. *)
Theorem whereNotIn_negates_whereIn :
  forall (W : Type) (query : Query.t) (where_ : Where.t) (st : State W),
  exists (is_in not_in : Evaluator) (b : bool),
    whereIn query where_ = Function is_in
    /\ whereNotIn query where_ = Function not_in
    /\ is_in st = (Return b, after_resolve st (Where.column where_))
    /\ not_in st = (Return (negb b), after_resolve st (Where.column where_)).
Proof.
  intros W query w st.
  eexists _, _, (member (resolve st (Where.column w)) (Where.values w)).
  split; [reflexivity|]. split; [reflexivity|]. split.
  - change (reads (W:=W) (Where.column w)
              (fun v => greater_equal (num (indexOf (Where.values w) v)) (num 0))
              st = (Return (member (resolve st (Where.column w)) (Where.values w)),
                    after_resolve st (Where.column w))).
    now rewrite reads_run, indexOf_found.
  - change (reads (W:=W) (Where.column w)
              (fun v => loose_equals (num (indexOf (Where.values w) v)) (num (-1)))
              st = (Return (negb (member (resolve st (Where.column w))
                                    (Where.values w))),
                    after_resolve st (Where.column w))).
    now rewrite reads_run, indexOf_missing.
Qed.

(** C6: the Null evaluator returns [true] exactly when the resolved value is
    the empty string or [null], and the NotNull evaluator exactly when it is
    neither; both make one call to the resolver.  With a resolver giving
    the empty string or [null], Null is [true] and NotNull [false]; with one
    giving "x" it is the other way round. *)
Theorem whereNull_tests_emptiness :
  (forall (W : Type) (query : Query.t) (where_ : Where.t) (st : State W),
    exists (is_null not_null : Evaluator) (b c : bool),
      whereNull query where_ = Function is_null
      /\ whereNotNull query where_ = Function not_null
      /\ is_null st = (Return b, after_resolve st (Where.column where_))
      /\ not_null st = (Return c, after_resolve st (Where.column where_))
      /\ (b = true <->
            resolve st (Where.column where_) = VString ""
            \/ resolve st (Where.column where_) = VNull)
      /\ (c = true <->
            resolve st (Where.column where_) <> VString ""
            /\ resolve st (Where.column where_) <> VNull))
  /\ (forall (v : Value) (expected : bool),
        In (v, expected)
           [(VString "", true); (VNull, true); (VString "x", false)] ->
        exists is_null not_null,
          whereNull (Query.make None) (where_null "Null" "and" "deleted_at")
          = Function is_null
          /\ whereNotNull (Query.make None)
               (where_null "NotNull" "and" "deleted_at")
             = Function not_null
          /\ fst (is_null (constructor (Some (fixed (every_column v))) tt))
             = Return expected
          /\ fst (not_null (constructor (Some (fixed (every_column v))) tt))
             = Return (negb expected)).
Proof.
  split.
  - intros W query w st.
    exists (reads (Where.column w)
              (fun v => greater_equal (num (indexOf [VString ""; VNull] v))
                          (num 0))),
           (reads (Where.column w)
              (fun v => loose_equals (num (indexOf [VString ""; VNull] v))
                          (num (-1)))),
           (member (resolve st (Where.column w)) [VString ""; VNull]),
           (negb (member (resolve st (Where.column w)) [VString ""; VNull])).
    split; [reflexivity|]. split; [reflexivity|].
    split; [now rewrite reads_run, indexOf_found|].
    split; [now rewrite reads_run, indexOf_missing|].
    split.
    + apply member_empty_or_null.
    + rewrite negb_true_iff, <- not_true_iff_false, member_empty_or_null.
      tauto.
  - intros v expected H.
    eexists _, _. split; [reflexivity|]. split; [reflexivity|].
    simpl in H.
    destruct H as [[= <- <-] | [[= <- <-] | [[= <- <-] | []]]];
      split; reflexivity.
Qed.

Lemma whereNull_tests_emptiness_witness :
  In (VString "x", false)
     [(VString "", true); (VNull, true); (VString "x", false)]
  /\ exists is_null not_null,
       whereNull (Query.make None) (where_null "Null" "and" "deleted_at")
       = Function is_null
       /\ whereNotNull (Query.make None)
            (where_null "NotNull" "and" "deleted_at")
          = Function not_null
       /\ fst (is_null
                 (constructor (Some (fixed (every_column (VString "x")))) tt))
          = Return false
       /\ fst (not_null
                 (constructor (Some (fixed (every_column (VString "x")))) tt))
          = Return (negb false).
Proof.
  split.
  - right. right. left. reflexivity.
  - apply (proj2 whereNull_tests_emptiness (VString "x") false).
    right. right. left. reflexivity.
Defined.

(** C10: In and NotIn decide membership by strict equality against the
    values list, whereas the Basic [=] operator compares loosely: for a
    column resolving to the string "1", the clause [n = 1] is true while the
    clause [n in (1)] is false. *)
Theorem membership_is_strict :
  (forall (W : Type) (query : Query.t) (where_ : Where.t) (st : State W),
    exists is_in not_in : Evaluator,
      whereIn query where_ = Function is_in
      /\ whereNotIn query where_ = Function not_in
      /\ is_in st
         = (Return (member (resolve st (Where.column where_))
                      (Where.values where_)),
            after_resolve st (Where.column where_))
      /\ not_in st
         = (Return (negb (member (resolve st (Where.column where_))
                            (Where.values where_))),
            after_resolve st (Where.column where_)))
  /\ (exists equals is_in : Evaluator,
        whereBasic (Query.make None) (basic "and" "n" "=" (num 1))
        = Function equals
        /\ whereIn (Query.make None) (where_in "and" "n" [num 1])
           = Function is_in
        /\ fst (equals
                  (constructor (Some (fixed (every_column (VString "1")))) tt))
           = Return true
        /\ fst (is_in
                  (constructor (Some (fixed (every_column (VString "1")))) tt))
           = Return false).
Proof.
  split.
  - intros W query w st.
    exists (reads (Where.column w)
              (fun v => greater_equal (num (indexOf (Where.values w) v))
                          (num 0))),
           (reads (Where.column w)
              (fun v => loose_equals (num (indexOf (Where.values w) v))
                          (num (-1)))).
    split; [reflexivity|]. split; [reflexivity|].
    split; [now rewrite reads_run, indexOf_found
           | now rewrite reads_run, indexOf_missing].
  - eexists _, _. split; [reflexivity|]. split; [reflexivity|].
    split; reflexivity.
Qed.

(** C1: the predicate built by evaluateWhereClauses is the left-to-right
    fold of the clause list.  On the empty list it returns the unset
    accumulator, [null].  On a non-empty list of compiled clauses it runs the
    first evaluator and takes its result as the accumulator, whatever the
    first connective is; each later clause runs its evaluator and joins the
    value to the accumulator with the clause's own connective, "and" as
    conjunction and "or" as disjunction; the last accumulator is the
    result. *)
Theorem evaluateWhereClauses_left_fold :
  forall (W : Type) (query : Query.t),
    (forall st : State W,
        evaluateWhereClauses query [] st = (Return VNull, st))
    /\ (forall (first : string * Evaluator) (rest : list (string * Evaluator))
               (st : State W),
          Forall (fun c => fst c = "and" \/ fst c = "or") rest ->
          evaluateWhereClauses query (map clause_of (first :: rest)) st
          = as_value (left_fold first rest) st).
Proof.
  intros W query. split; [reflexivity|].
  intros [connective evaluator] rest st H.
  unfold evaluateWhereClauses. cbn [map]. rewrite array_reduce_cons.
  unfold clause_of at 1, combine. cbn [strict_equals callback fst snd].
  rewrite call_run. unfold left_fold. cbn [snd]. rewrite as_value_bind.
  destruct (evaluator st) as [[value|e] st1]; [|reflexivity].
  now apply array_reduce_fold_from.
Qed.

Lemma evaluateWhereClauses_left_fold_witness :
  Forall (fun c : string * @Evaluator nat => fst c = "and" \/ fst c = "or")
    [("and", reads "age" (fun v => greater_equal v (num 18)));
     ("or", reads "role" (fun v => loose_equals v (VString "admin")))]
  /\ evaluateWhereClauses (Query.make None)
       (map clause_of
          [("xor", reads "status" (fun v => loose_equals v (VString "active")));
           ("and", reads "age" (fun v => greater_equal v (num 18)));
           ("or", reads "role" (fun v => loose_equals v (VString "admin")))])
       (constructor (Some (counting (person "active" 17))) 0%nat)
     = as_value
         (left_fold
            ("xor", reads "status" (fun v => loose_equals v (VString "active")))
            [("and", reads "age" (fun v => greater_equal v (num 18)));
             ("or", reads "role" (fun v => loose_equals v (VString "admin")))])
         (constructor (Some (counting (person "active" 17))) 0%nat).
Proof.
  assert (H : Forall
                (fun c : string * @Evaluator nat =>
                   fst c = "and" \/ fst c = "or")
                [("and", reads "age" (fun v => greater_equal v (num 18)));
                 ("or", reads "role"
                          (fun v => loose_equals v (VString "admin")))]).
  { constructor; [left; reflexivity|].
    constructor; [right; reflexivity|]. constructor. }
  split.
  - exact H.
  - apply (proj2 (evaluateWhereClauses_left_fold nat (Query.make None))).
    exact H.
Defined.

(** C2: the predicate compiled from a non-empty list of well-formed clause
    descriptors invokes every clause's evaluator exactly once per
    invocation, whatever the connectives and the earlier results: an
    invocation returns normally and leaves the caller's data as one call to
    the resolver per clause, in clause order, leaves it.  With a counting
    resolver the count grows by the number of clauses; for
    [status = "active" and age >= 18] on an inactive person the first
    clause is false, the result is [false], and the count is 2. *)
Theorem every_evaluator_invoked_once :
  (forall (W : Type) (query : Query.t) (wheres : list Where.t),
      Query.wheres query = Some wheres -> wheres <> [] ->
      forallb well_formed wheres = true ->
      exists predicate,
        (forall st : State W, compile query st = (Return predicate, st))
        /\ (forall st : State W,
              exists result,
                predicate st
                = (Return result, resolve_all (map Where.column wheres) st)))
  /\ (forall (query : Query.t) (wheres : list Where.t) (row : string -> Value),
        Query.wheres query = Some wheres -> wheres <> [] ->
        forallb well_formed wheres = true ->
        exists predicate,
          (forall st : State nat, compile query st = (Return predicate, st))
          /\ (forall st : State nat,
                columnResolver st = counting row ->
                world (snd (predicate st))
                = (world st + length wheres)%nat))
  /\ (exists predicate,
        compile active_adult
          (constructor (Some (counting (person "inactive" 30))) 0%nat)
        = (Return predicate,
           constructor (Some (counting (person "inactive" 30))) 0%nat)
        /\ predicate
             (constructor (Some (counting (person "inactive" 30))) 0%nat)
           = (Return (VBool false),
              mkState (counting (person "inactive" 30)) 2%nat [])).
Proof.
  split; [|split].
  - intros W query wheres Hw Hne Hwf.
    destruct (compile_well_formed (W:=W) query wheres Hw Hne Hwf)
      as (cs & HF & Hc).
    exists (evaluateWhereClauses query cs). split; [exact Hc|].
    intros st. now apply array_reduce_eager.
  - intros query wheres row Hw Hne Hwf.
    destruct (compile_well_formed (W:=nat) query wheres Hw Hne Hwf)
      as (cs & HF & Hc).
    exists (evaluateWhereClauses query cs). split; [exact Hc|].
    intros st Hr.
    destruct (array_reduce_eager wheres cs HF VNull st) as (r & E).
    unfold evaluateWhereClauses. rewrite E. cbn [snd].
    rewrite (resolve_all_counting row) by exact Hr.
    now rewrite length_map.
  - eexists. split; reflexivity.
Qed.

Lemma every_evaluator_invoked_once_witness :
  (Query.wheres active_adult
   = Some [basic "and" "status" "=" (VString "active");
           basic "and" "age" ">=" (num 18)]
   /\ [basic "and" "status" "=" (VString "active");
       basic "and" "age" ">=" (num 18)] <> []
   /\ forallb well_formed
        [basic "and" "status" "=" (VString "active");
         basic "and" "age" ">=" (num 18)] = true)
  /\ exists predicate,
       (forall st : State nat, compile active_adult st = (Return predicate, st))
       /\ (forall st : State nat,
             exists result,
               predicate st
               = (Return result,
                  resolve_all
                    (map Where.column
                       [basic "and" "status" "=" (VString "active");
                        basic "and" "age" ">=" (num 18)]) st)).
Proof.
  split.
  - split; [reflexivity|]. split; [discriminate | reflexivity].
  - apply (proj1 every_evaluator_invoked_once nat active_adult).
    + reflexivity.
    + discriminate.
    + reflexivity.
Defined.

(** C7: column resolution is late-bound.  The accessor built by [column]
    calls whatever resolver the grammar holds when the accessor is invoked.
    A predicate compiled earlier and invoked after [setColumnResolver]
    behaves exactly as a predicate compiled after the swap: nothing of the
    resolver of compile time is kept.  The predicate compiled for [age = 30]
    while the resolver gives 30 returns [true]; after the resolver is
    replaced by one giving 31, the same predicate returns [false]. *)
Theorem resolver_is_late_bound :
  (forall (W : Type) (name : string) (resolver : Resolver W) (st : State W),
      bind (setColumnResolver resolver) (fun _ => column name) st
      = (Return (fst (resolver name (world st))),
         mkState resolver (snd (resolver name (world st))) (console st)))
  /\ (forall (W : Type) (query : Query.t) (st0 st0' : State W)
             (predicate : Predicate),
        compile query st0 = (Return predicate, st0') ->
        forall (resolver : Resolver W) (st : State W),
          bind (setColumnResolver resolver) (fun _ => predicate) st
          = bind (setColumnResolver resolver)
              (fun _ => bind (compile query) (fun fresh => fresh)) st)
  /\ (exists predicate,
        compile age_is_30 (constructor (Some (fixed (person "a" 30))) tt)
        = (Return predicate, constructor (Some (fixed (person "a" 30))) tt)
        /\ fst (predicate (constructor (Some (fixed (person "a" 30))) tt))
           = Return (VBool true)
        /\ fst (bind (setColumnResolver (fixed (person "a" 31)))
                  (fun _ => predicate)
                  (snd (predicate
                          (constructor (Some (fixed (person "a" 30))) tt))))
           = Return (VBool false)).
Proof.
  split; [|split].
  - intros W name resolver st.
    unfold bind, setColumnResolver, column; simpl.
    now destruct (resolver name (world st)).
  - intros W query st0 st0' predicate Hc resolver st.
    unfold bind at 1 2. unfold setColumnResolver.
    set (st1 := mkState resolver (world st) (console st)).
    unfold bind.
    pose proof (compile_independent query st1 st0) as I.
    rewrite Hc in I. cbn [fst] in I.
    destruct (compile query st1) as [r st2] eqn:E. cbn [fst] in I. subst r.
    now rewrite (compile_return query st1 predicate st2 E).
  - eexists. split; [reflexivity|]. split; reflexivity.
Qed.

Lemma resolver_is_late_bound_witness :
  compile age_is_30 (constructor (Some (counting (person "a" 30))) 0%nat)
  = (Return
       (evaluateWhereClauses age_is_30
          [mkClause "and"
             (Function (reads "age" (fun v => loose_equals v (num 30))))]),
     constructor (Some (counting (person "a" 30))) 0%nat)
  /\ bind (setColumnResolver (counting (person "a" 31)))
       (fun _ =>
          evaluateWhereClauses age_is_30
            [mkClause "and"
               (Function (reads "age" (fun v => loose_equals v (num 30))))])
       (constructor (Some (counting (person "a" 30))) 5%nat)
     = bind (setColumnResolver (counting (person "a" 31)))
         (fun _ => bind (compile age_is_30) (fun fresh => fresh))
         (constructor (Some (counting (person "a" 30))) 5%nat).
Proof.
  split.
  - reflexivity.
  - apply (proj1 (proj2 resolver_is_late_bound) nat age_is_30
             (constructor (Some (counting (person "a" 30))) 0%nat)
             (constructor (Some (counting (person "a" 30))) 0%nat)).
    reflexivity.
Defined.

(** C8: compilation is lazy.  Compiling any query, whether it succeeds or
    throws, leaves the caller's data untouched, so it calls the resolver
    zero times (a counting resolver's count does not move).  The resolver
    is called when the predicate is invoked, and every invocation calls it
    again: two invocations in a row each make one call per clause.  With a
    resolver that hands out changing values, the predicate compiled for
    [n >= 1] returns [false] on its first invocation and [true] on its
    second. *)
Theorem compile_does_not_resolve :
  (forall (W : Type) (query : Query.t) (st : State W),
      world (snd (compile query st)) = world st)
  /\ (forall (query : Query.t) (row : string -> Value) (count : nat)
             (messages : list string),
        world (snd (compile query (mkState (counting row) count messages)))
        = count)
  /\ (forall (W : Type) (query : Query.t) (wheres : list Where.t),
        Query.wheres query = Some wheres -> wheres <> [] ->
        forallb well_formed wheres = true ->
        exists predicate,
          (forall st : State W, compile query st = (Return predicate, st))
          /\ (forall st : State W,
                exists first second,
                  predicate st
                  = (Return first, resolve_all (map Where.column wheres) st)
                  /\ predicate (resolve_all (map Where.column wheres) st)
                     = (Return second,
                        resolve_all (map Where.column wheres)
                          (resolve_all (map Where.column wheres) st))))
  /\ (exists predicate,
        compile at_least_one (constructor (Some ticking) 0%nat)
        = (Return predicate, constructor (Some ticking) 0%nat)
        /\ predicate (constructor (Some ticking) 0%nat)
           = (Return (VBool false), mkState ticking 1%nat [])
        /\ predicate (mkState ticking 1%nat [])
           = (Return (VBool true), mkState ticking 2%nat [])).
Proof.
  split; [|split; [|split]].
  - intros W query st. apply compile_frame.
  - intros query row count messages.
    apply (compile_frame query (mkState (counting row) count messages)).
  - intros W query wheres Hw Hne Hwf.
    destruct (compile_well_formed (W:=W) query wheres Hw Hne Hwf)
      as (cs & HF & Hc).
    exists (evaluateWhereClauses query cs). split; [exact Hc|].
    intros st.
    destruct (array_reduce_eager wheres cs HF VNull st) as (r1 & E1).
    destruct (array_reduce_eager wheres cs HF VNull
                (resolve_all (map Where.column wheres) st)) as (r2 & E2).
    exists r1, r2. split; [exact E1 | exact E2].
  - eexists. split; [reflexivity|]. split; reflexivity.
Qed.

Lemma compile_does_not_resolve_witness :
  (Query.wheres at_least_one = Some [basic "and" "n" ">=" (num 1)]
   /\ [basic "and" "n" ">=" (num 1)] <> []
   /\ forallb well_formed [basic "and" "n" ">=" (num 1)] = true)
  /\ exists predicate,
       (forall st : State nat, compile at_least_one st = (Return predicate, st))
       /\ (forall st : State nat,
             exists first second,
               predicate st
               = (Return first,
                  resolve_all
                    (map Where.column [basic "and" "n" ">=" (num 1)]) st)
               /\ predicate
                    (resolve_all
                       (map Where.column [basic "and" "n" ">=" (num 1)]) st)
                  = (Return second,
                     resolve_all
                       (map Where.column [basic "and" "n" ">=" (num 1)])
                       (resolve_all
                          (map Where.column [basic "and" "n" ">=" (num 1)])
                          st))).
Proof.
  split.
  - split; [reflexivity|]. split; [discriminate | reflexivity].
  - apply (proj1 (proj2 (proj2 compile_does_not_resolve)) nat at_least_one).
    + reflexivity.
    + discriminate.
    + reflexivity.
Defined.

(** X2: a clause of a kind that has no compiler method makes compilation
    fail, at the first such clause: the two messages are logged and the call
    of the missing method throws; the clauses after it are not looked at and
    the resolver is not called. *)
Lemma unknown_type_rejected :
  forall (W : Type) (query : Query.t) (before after : list Where.t)
         (where_ : Where.t) (st : State W),
    Query.wheres query = Some (before ++ where_ :: after)%list ->
    forallb (fun w => known_type (Where.type w)) before = true ->
    known_type (Where.type where_) = false ->
    compile query st
    = (Throw TypeError, log st (not_defined (Where.type where_))).
Proof.
  intros W query before after w st Hw Hb Hu.
  rewrite (compile_run query _ st Hw) by (now destruct before).
  clear Hw. induction before as [|b before IH].
  - cbn [app]. rewrite array_map_cons, compileWhere_run.
    now rewrite (method_unknown _ Hu).
  - cbn [forallb] in Hb. apply andb_true_iff in Hb as [Hk Hb].
    cbn [app]. rewrite array_map_cons, compileWhere_run.
    destruct (method_known (W:=W) _ Hk) as [compiler ->].
    specialize (IH Hb).
    destruct (array_map (compileWhere query) (before ++ w :: after)%list st)
      as [[cs|e] st1]; [discriminate|].
    exact IH.
Qed.

Example name_between_rejected :
  compile name_between (constructor (Some (counting (person "a" 30))) 0%nat)
  = (Throw TypeError,
     mkState (counting (person "a" 30)) 0%nat
       ["Method ScriptGrammar::whereBetween() is not defined.";
        "Method ScriptGrammar::whereBetween() is not a function."]).
Proof. reflexivity. Qed.

(** C9, where the class departs from it: a Basic clause whose operator is
    not one of the seven is not rejected.  Compilation returns normally, logs
    nothing and hands back a predicate; the failure shows only when the
    predicate is invoked, as a TypeError from calling the missing
    evaluator. *)
Theorem unknown_operator_not_rejected :
  forall (W : Type) (query : Query.t) (where_ : Where.t) (st : State W),
    Query.wheres query = Some [where_] ->
    Where.type where_ = "Basic" ->
    known_operator (Where.operator where_) = false ->
    exists predicate,
      compile query st = (Return predicate, st)
      /\ forall st' : State W, predicate st' = (Throw TypeError, st').
Proof.
  intros W query w st Hw Ht Hu.
  exists (evaluateWhereClauses query [mkClause (Where.boolean w) Undefined]).
  split.
  - rewrite (compile_run query [w] st Hw) by discriminate.
    rewrite array_map_cons, compileWhere_run, Ht.
    change (method (W:=W) ("where" ++ "Basic")) with (Some (whereBasic (W:=W))).
    cbv iota beta. now rewrite (whereBasic_unknown query w Hu).
  - intros st'. now rewrite evaluateWhereClauses_single.
Qed.

Lemma unknown_operator_not_rejected_witness :
  (Query.wheres name_like = Some [basic "and" "name" "like" (VString "a%")]
   /\ Where.type (basic "and" "name" "like" (VString "a%")) = "Basic"
   /\ known_operator (Where.operator (basic "and" "name" "like" (VString "a%")))
      = false)
  /\ exists predicate,
       compile name_like (constructor (Some (counting (person "a" 30))) 0%nat)
       = (Return predicate,
          constructor (Some (counting (person "a" 30))) 0%nat)
       /\ forall st' : State nat, predicate st' = (Throw TypeError, st').
Proof.
  split.
  - repeat split.
  - apply (unknown_operator_not_rejected nat name_like
             (basic "and" "name" "like" (VString "a%"))); reflexivity.
Defined.

(** [undefined] is neither the empty string nor [null] for [indexOf]: a
    resolver that hands back [undefined] makes Null false and NotNull
    true. *)
Lemma whereNull_undefined :
  forall (W : Type) (query : Query.t) (where_ : Where.t) (st : State W),
    resolve st (Where.column where_) = VUndefined ->
    exists is_null not_null : Evaluator,
      whereNull query where_ = Function is_null
      /\ whereNotNull query where_ = Function not_null
      /\ fst (is_null st) = Return false
      /\ fst (not_null st) = Return true.
Proof.
  intros W query w st H.
  eexists (reads _ _), (reads _ _).
  split; [reflexivity|]. split; [reflexivity|].
  rewrite !reads_run, H. split; reflexivity.
Qed.

(* ===================================================================== *)
(** ** Further properties: what a compiled clause denotes *)
(* ===================================================================== *)

Section Denotation.
Context {W : Type}.
Implicit Types (st : State W) (query : Query.t).

Lemma after_resolve_frame st (name : string) :
  columnResolver (after_resolve st name) = columnResolver st
  /\ console (after_resolve st name) = console st.
Proof. now split. Qed.

Lemma resolve_all_frame (names : list string) :
  forall st,
    columnResolver (resolve_all names st) = columnResolver st
    /\ console (resolve_all names st) = console st.
Proof.
  induction names as [|name rest IH]; intros st.
  - now split.
  - change (resolve_all (name :: rest) st)
      with (resolve_all rest (after_resolve st name)).
    destruct (IH (after_resolve st name)) as [-> ->]. now split.
Qed.

Lemma after_resolve_pure st (name : string) :
  pure (columnResolver st) -> after_resolve st name = st.
Proof.
  intros H. unfold after_resolve, set_world. rewrite H. now destruct st.
Qed.

Lemma resolve_all_pure (names : list string) st :
  pure (columnResolver st) -> resolve_all names st = st.
Proof.
  intros H. induction names as [|name rest IH]; [reflexivity|].
  change (resolve_all (name :: rest) st)
    with (resolve_all rest (after_resolve st name)).
  now rewrite after_resolve_pure.
Qed.

Lemma steps_pure (wheres : list Where.t) st :
  pure (columnResolver st) ->
  steps wheres st
  = map (fun w => (Where.boolean w, holds w (resolve st (Where.column w))))
      wheres.
Proof.
  intros H. induction wheres as [|w rest IH]; [reflexivity|].
  cbn [steps map]. now rewrite after_resolve_pure, IH.
Qed.

(** Whatever a compiler method returns is [undefined] or an evaluator that
    reads the descriptor's column. *)
Lemma method_cases (name : string) compiler query (where_ : Where.t) :
  method (W:=W) name = Some compiler ->
  compiler query where_ = Undefined
  \/ exists test,
       compiler query where_ = Function (reads (Where.column where_) test).
Proof.
  unfold method.
  repeat match goal with
         | |- context [String.eqb name ?b] => destruct (String.eqb name b)
         end; intros [= <-]; try (right; eexists; reflexivity).
  unfold whereBasic; cbv zeta.
  repeat match goal with
         | |- context [String.eqb ?a ?b] => destruct (String.eqb a b)
         end; try (right; eexists; reflexivity).
  now left.
Qed.

Lemma known_type_cases (type : string) :
  known_type type = true ->
  type = "Basic" \/ type = "In" \/ type = "NotIn" \/ type = "Null"
  \/ type = "NotNull".
Proof.
  unfold known_type; cbn [existsb].
  rewrite !orb_true_iff, !String.eqb_eq. intuition discriminate.
Qed.

(** The evaluator of a well-formed descriptor tests what the descriptor
    says. *)
Lemma method_holds query (where_ : Where.t) compiler :
  well_formed where_ = true ->
  method (W:=W) ("where" ++ Where.type where_) = Some compiler ->
  exists test,
    compiler query where_ = Function (reads (Where.column where_) test)
    /\ forall v, test v = holds where_ v.
Proof.
  unfold well_formed. intros Hwf. apply andb_true_iff in Hwf as [Hk Hop].
  unfold holds; cbv zeta.
  destruct (known_type_cases _ Hk) as [E|[E|[E|[E|E]]]];
    rewrite E in *; cbn [String.eqb Ascii.eqb Bool.eqb] in *;
    change (method (W:=W) ("where" ++ ?t)) with (method (W:=W) ("where" ++ t));
    intros [= <-].
  - assert (exists cmp, comparison (Where.operator where_) = Some cmp)
      as [cmp Hcmp].
    { revert Hop. unfold known_operator, comparison; simpl.
      repeat match goal with
             | |- context [String.eqb ?a ?b] => destruct (String.eqb a b)
             end; simpl; intros H; try discriminate H; eauto. }
    rewrite Hcmp. exists (fun v => cmp v (Where.value where_)).
    split; [now apply whereBasic_reads | reflexivity].
  - eexists. split; [reflexivity|]. intros v. apply indexOf_found.
  - eexists. split; [reflexivity|]. intros v. apply indexOf_missing.
  - eexists. split; [reflexivity|]. intros v. apply indexOf_found.
  - eexists. split; [reflexivity|]. intros v. apply indexOf_missing.
Qed.

(** Compilation of a list of descriptors of known kinds. *)
Lemma array_map_known query (wheres : list Where.t) :
  forallb (fun w => known_type (Where.type w)) wheres = true ->
  exists clauses,
    Forall2 (built_from query) wheres clauses
    /\ forall st,
         array_map (compileWhere query) wheres st = (Return clauses, st).
Proof.
  induction wheres as [|w rest IH]; cbn [forallb].
  - intros _. exists []. now split.
  - intros H. apply andb_true_iff in H as [Hw Hrest].
    destruct (IH Hrest) as (cs & HF & Hrun).
    destruct (method_known (W:=W) _ Hw) as [compiler Hm].
    exists (mkClause (Where.boolean w) (compiler query w) :: cs). split.
    + constructor; [|exact HF]. now exists compiler.
    + intros st. now rewrite array_map_cons, compileWhere_run, Hm, Hrun.
Qed.

(** It succeeds only on descriptors of known kinds. *)
Lemma array_map_success query (wheres : list Where.t) :
  forall st clauses st',
    array_map (compileWhere query) wheres st = (Return clauses, st') ->
    forallb (fun w => known_type (Where.type w)) wheres = true.
Proof.
  induction wheres as [|w rest IH]; intros st clauses st'; [reflexivity|].
  rewrite array_map_cons, compileWhere_run. cbn [forallb].
  destruct (known_type (Where.type w)) eqn:K.
  - destruct (method ("where" ++ Where.type w)) as [compiler|];
      [|discriminate].
    destruct (array_map (compileWhere query) rest st) as [[cs|e] st1] eqn:E;
      [|discriminate].
    intros _. eapply IH, E.
  - now rewrite (method_unknown _ K).
Qed.

Lemma well_formed_known (wheres : list Where.t) :
  forallb well_formed wheres = true ->
  forallb (fun w => known_type (Where.type w)) wheres = true.
Proof.
  rewrite !forallb_forall. intros H w Hin.
  specialize (H w Hin). unfold well_formed in H.
  now apply andb_true_iff in H as [H _].
Qed.

(** One step of the fold over an evaluator that reads a column. *)
Lemma combine_reads (result : Value) (connective name : string)
    (test : Value -> bool) st :
  combine result (mkClause connective (Function (reads name test))) st
  = (Return (combine_value result connective (test (resolve st name))),
     after_resolve st name).
Proof.
  unfold combine, combine_value. cbn [callback boolean].
  destruct (strict_equals result VNull).
  - now rewrite call_reads.
  - unfold bind. rewrite call_reads.
    now repeat match goal with
               | |- context [String.eqb ?a ?b] => destruct (String.eqb a b)
               end.
Qed.

(** The whole fold over the clauses of well-formed descriptors: the value
    is computed from what the descriptors say of the values read, and the
    resolver is called once per descriptor. *)
Lemma array_reduce_steps query (wheres : list Where.t)
    (clauses : list (@Clause W)) :
  Forall2 (built_from query) wheres clauses ->
  forallb well_formed wheres = true ->
  forall (result : Value) st,
    array_reduce combine clauses result st
    = (Return (combine_values result (steps wheres st)),
       resolve_all (map Where.column wheres) st).
Proof.
  induction 1 as [|w c ws cs (compiler & Hm & ->) _ IH]; intros Hwf result st.
  - reflexivity.
  - cbn [forallb] in Hwf. apply andb_true_iff in Hwf as [Hw Hws].
    destruct (method_holds query w compiler Hw Hm) as (test & Hc & Ht).
    rewrite array_reduce_cons, Hc, combine_reads, Ht.
    now rewrite (IH Hws).
Qed.

Lemma combine_values_join (rest : list (string * bool)) :
  Forall (fun step => fst step = "and" \/ fst step = "or") rest ->
  forall b : bool,
    combine_values (VBool b) rest = VBool (join b rest).
Proof.
  induction 1 as [|[connective v] rest Hc _ IH]; intros b; [reflexivity|].
  unfold combine_values, join in *. cbn [fold_left fst snd] in *.
  rewrite <- IH. f_equal.
  unfold combine_value, connect. cbn [strict_equals].
  destruct Hc as [-> | ->]; cbn [String.eqb Ascii.eqb Bool.eqb];
    [apply and_booleans | apply or_booleans].
Qed.

(** Once a clause has run, the accumulator is a boolean or [undefined]. *)
Lemma combine_value_kind (result : Value) (connective : string) (b : bool) :
  result = VNull \/ boolean_or_undefined result ->
  boolean_or_undefined (combine_value result connective b).
Proof.
  unfold combine_value, boolean_or_undefined.
  intros [-> | [-> | [a ->]]]; cbn [strict_equals].
  - right. now exists b.
  - repeat match goal with
           | |- context [String.eqb ?x ?y] => destruct (String.eqb x y)
           end; cbn [JS.and JS.or ToBoolean]; eauto.
  - repeat match goal with
           | |- context [String.eqb ?x ?y] => destruct (String.eqb x y)
           end; rewrite ?and_booleans, ?or_booleans; eauto.
Qed.

Lemma combine_values_kind (rest : list (string * bool)) :
  forall result,
    boolean_or_undefined result ->
    boolean_or_undefined (combine_values result rest).
Proof.
  induction rest as [|[connective b] rest IH]; intros result H; [exact H|].
  apply IH, combine_value_kind. now right.
Qed.

End Denotation.

Section Predicates.
Context {W : Type}.
Implicit Types (st : State W) (query : Query.t).

Lemma array_reduce_app {A B} (f : B -> A -> M W B) (xs ys : list A) :
  forall (initialValue : B) st,
    array_reduce f (xs ++ ys)%list initialValue st
    = match array_reduce f xs initialValue st with
      | (Return result, st1) => array_reduce f ys result st1
      | (Throw e, st1) => (Throw e, st1)
      end.
Proof.
  induction xs as [|x xs IH]; intros initialValue st.
  - reflexivity.
  - cbn [app]. rewrite !array_reduce_cons.
    destruct (f initialValue x st) as [[r|e] st1]; [apply IH | reflexivity].
Qed.

Lemma steps_app (xs ys : list Where.t) :
  forall st,
    (steps xs st ++ steps ys (resolve_all (map Where.column xs) st))%list
    = steps (xs ++ ys)%list st.
Proof.
  induction xs as [|x xs IH]; intros st.
  - reflexivity.
  - cbn [app steps map]. rewrite <- IH. reflexivity.
Qed.

(** A clause without an evaluator stops the fold where it stands. *)
Lemma combine_undefined (result : Value) (connective : string) st :
  combine result (mkClause connective Undefined) st = (Throw TypeError, st).
Proof.
  unfold combine. cbn [callback]. now destruct (strict_equals result VNull).
Qed.

(** Whatever the clauses of a compiled query, an invocation leaves the state
    as some calls to the resolver leave it. *)
Lemma array_reduce_built query (wheres : list Where.t)
    (clauses : list (@Clause W)) :
  Forall2 (built_from query) wheres clauses ->
  forall (result : Value) st,
  exists names,
    snd (array_reduce combine clauses result st) = resolve_all names st.
Proof.
  induction 1 as [|w c ws cs (compiler & Hm & ->) _ IH]; intros result st.
  - now exists [].
  - rewrite array_reduce_cons.
    destruct (method_cases _ compiler query w Hm) as [-> | [test ->]].
    + rewrite combine_undefined. now exists [].
    + rewrite combine_reads.
      destruct (IH (combine_value result (Where.boolean w)
                      (test (resolve st (Where.column w))))
                   (after_resolve st (Where.column w))) as [names ->].
      now exists (Where.column w :: names).
Qed.

(** Every predicate [compile] returns is the constant [true] or the fold
    over clauses built from the query's descriptors. *)
Lemma compile_cases query st (predicate : @Predicate W) st' :
  compile query st = (Return predicate, st') ->
  predicate = ret (VBool true)
  \/ exists wheres clauses,
       Query.wheres query = Some wheres
       /\ Forall2 (built_from query) wheres clauses
       /\ predicate = evaluateWhereClauses query clauses.
Proof.
  destruct (wheres_cases query) as [H | (ws & Hw & Hne)].
  - rewrite compile_empty by exact H. intros [= <- _]. now left.
  - rewrite (compile_run query ws st Hw Hne).
    destruct (array_map (compileWhere query) ws st) as [[cs|e] st1] eqn:E;
      [|discriminate].
    pose proof (array_map_success query ws st cs st1 E) as K.
    destruct (array_map_known (W:=W) query ws K) as (cs' & HF & Hrun).
    rewrite Hrun in E. injection E as <- _.
    intros [= <- _].
    destruct HF as [|w c ws' cs'' Hwc HF]; [congruence|].
    right. exists (w :: ws'), (c :: cs''). split; [exact Hw|].
    split; [now constructor | reflexivity].
Qed.

(** The predicate of well-formed descriptors, on any state. *)
Lemma compile_steps query (wheres : list Where.t) :
  Query.wheres query = Some wheres -> wheres <> [] ->
  forallb well_formed wheres = true ->
  exists predicate : @Predicate W,
    (forall st, compile query st = (Return predicate, st))
    /\ forall st,
         predicate st
         = (Return (combine_values VNull (steps wheres st)),
            resolve_all (map Where.column wheres) st).
Proof.
  intros Hw Hne Hwf.
  destruct (array_map_known (W:=W) query wheres (well_formed_known _ Hwf))
    as (cs & HF & Hrun).
  exists (evaluateWhereClauses query cs). split.
  - intros st. rewrite (compile_run query wheres st Hw Hne), Hrun.
    destruct HF; [congruence | reflexivity].
  - intros st. now apply (array_reduce_steps query).
Qed.

Lemma combine_values_first (connective : string) (b : bool)
    (rest : list (string * bool)) :
  combine_values VNull ((connective, b) :: rest)
  = combine_values (VBool b) rest.
Proof. reflexivity. Qed.

Lemma join_and (rest : list (string * bool)) :
  Forall (fun step => fst step = "and") rest ->
  forall b, join b rest = b && forallb snd rest.
Proof.
  induction 1 as [|[c v] rest Hc _ IH]; intros b.
  - cbn. now rewrite andb_true_r.
  - cbn [fst] in Hc. subst c. unfold join in *. cbn [fold_left fst snd forallb].
    rewrite IH. unfold connect. cbn [String.eqb Ascii.eqb Bool.eqb].
    now rewrite andb_assoc.
Qed.

Lemma join_or (rest : list (string * bool)) :
  Forall (fun step => fst step = "or") rest ->
  forall b, join b rest = b || existsb snd rest.
Proof.
  induction 1 as [|[c v] rest Hc _ IH]; intros b.
  - cbn. now rewrite orb_false_r.
  - cbn [fst] in Hc. subst c. unfold join in *. cbn [fold_left fst snd existsb].
    rewrite IH. unfold connect. cbn [String.eqb Ascii.eqb Bool.eqb].
    now rewrite orb_assoc.
Qed.

Lemma steps_connectives (P : string -> Prop) (wheres : list Where.t) :
  Forall (fun w => P (Where.boolean w)) wheres ->
  forall st, Forall (fun step => P (fst step)) (steps wheres st).
Proof.
  induction 1 as [|w ws Hw _ IH]; intros st; cbn [steps]; constructor; auto.
Qed.

(** With a resolver without effects, the predicate of well-formed
    descriptors is computed from the value of each descriptor's column. *)
Lemma compile_steps_pure query (wheres : list Where.t) :
  Query.wheres query = Some wheres -> wheres <> [] ->
  forallb well_formed wheres = true ->
  exists predicate : @Predicate W,
    (forall st, compile query st = (Return predicate, st))
    /\ forall st,
         pure (columnResolver st) ->
         predicate st
         = (Return
              (combine_values VNull
                 (map (fun w => (Where.boolean w,
                                 holds w (resolve st (Where.column w))))
                    wheres)),
            st).
Proof.
  intros Hw Hne Hwf.
  destruct (compile_steps query wheres Hw Hne Hwf) as (p & Hp & Hrun).
  exists p. split; [exact Hp|]. intros st Hpure.
  now rewrite Hrun, resolve_all_pure, steps_pure.
Qed.

Lemma Forall_fst_map {A} (P : string -> Prop) (f : A -> string)
    (g : A -> bool) (l : list A) :
  Forall (fun x => P (f x)) l ->
  Forall (fun step => P (fst step)) (map (fun x => (f x, g x)) l).
Proof. induction 1; cbn [map]; constructor; auto. Qed.

Lemma runs_length (clauses : list (string * @Evaluator W)) st bs st' :
  runs clauses st bs st' -> length bs = length clauses.
Proof. induction 1; cbn [length]; congruence. Qed.

Lemma fold_from_runs (rest : list (string * @Evaluator W)) st bs st' :
  runs rest st bs st' ->
  forall accumulator : bool,
    fold_from accumulator rest st
    = (Return (join accumulator (List.combine (map fst rest) bs)), st').
Proof.
  induction 1 as [st|c f rest st b st1 bs st2 Hf _ IH]; intros accumulator.
  - reflexivity.
  - cbn [fold_from]. unfold bind. rewrite Hf. now rewrite IH.
Qed.

(** The predicate over evaluators that run: the first result joined with
    the later ones, each with its clause's connective. *)
Lemma evaluateWhereClauses_runs query (first : string * @Evaluator W)
    (rest : list (string * @Evaluator W)) st (b : bool) bs st' :
  Forall (fun c => fst c = "and" \/ fst c = "or") rest ->
  runs (first :: rest) st (b :: bs) st' ->
  evaluateWhereClauses query (map clause_of (first :: rest)) st
  = (Return (VBool (join b (List.combine (map fst rest) bs))), st').
Proof.
  intros Hc Hr. inversion Hr as [|c f rest' st0 b0 st1 bs0 st2 Hf Hrest]; subst.
  unfold evaluateWhereClauses. cbn [map]. rewrite array_reduce_cons.
  unfold clause_of at 1. unfold combine at 1.
  cbn [strict_equals callback fst snd]. rewrite call_run, Hf.
  rewrite (array_reduce_fold_from rest Hc b st1). unfold as_value, bind.
  now rewrite (fold_from_runs rest st1 bs st' Hrest).
Qed.

Lemma forallb_snd_combine {A} (l : list A) :
  forall bs : list bool,
    length bs = length l ->
    forallb snd (List.combine l bs) = forallb (fun b => b) bs.
Proof.
  induction l as [|x l IH]; intros [|b bs]; cbn; try discriminate; auto.
  intros [= H]. now rewrite IH.
Qed.

Lemma existsb_snd_combine {A} (l : list A) :
  forall bs : list bool,
    length bs = length l ->
    existsb snd (List.combine l bs) = existsb (fun b => b) bs.
Proof.
  induction l as [|x l IH]; intros [|b bs]; cbn; try discriminate; auto.
  intros [= H]. now rewrite IH.
Qed.

Lemma Forall_fst_combine {A} (P : A -> Prop) (l : list A) :
  Forall P l ->
  forall bs : list bool, Forall (fun step => P (fst step)) (List.combine l bs).
Proof.
  induction 1 as [|x l Hx _ IH]; intros [|b bs]; cbn; constructor; auto.
Qed.

End Predicates.

(* ===================================================================== *)
(** ** Further properties of compilation and of the predicates *)
(* ===================================================================== *)

(** X1: compilation of a query with a [wheres] list succeeds exactly when
    every clause kind has a compiler method (whatever the operators); when
    it succeeds it leaves the whole state, console included, as it was. *)
Theorem compile_succeeds_iff_kinds_known :
  forall (W : Type) (query : Query.t) (wheres : list Where.t) (st : State W),
    Query.wheres query = Some wheres ->
    (forallb (fun w => known_type (Where.type w)) wheres = true ->
     exists predicate, compile query st = (Return predicate, st))
    /\ (forall predicate st',
          compile query st = (Return predicate, st') ->
          forallb (fun w => known_type (Where.type w)) wheres = true
          /\ st' = st).
Proof.
  intros W query wheres st Hw. split.
  - intros K. destruct wheres as [|w rest].
    + exists (ret (VBool true)). apply compile_empty. now right.
    + destruct (array_map_known (W:=W) query (w :: rest) K) as (cs & _ & Hrun).
      rewrite (compile_run query (w :: rest) st Hw) by discriminate.
      rewrite Hrun. eauto.
  - intros predicate st' Hc. split.
    + destruct wheres as [|w rest]; [reflexivity|].
      rewrite (compile_run query (w :: rest) st Hw) in Hc by discriminate.
      destruct (array_map (compileWhere query) (w :: rest) st)
        as [[cs|e] st1] eqn:E; [|discriminate].
      eapply array_map_success, E.
    + eapply compile_return, Hc.
Qed.

Lemma compile_succeeds_iff_kinds_known_witness :
  Query.wheres name_like = Some [basic "and" "name" "like" (VString "a%")]
  /\ (forallb (fun w => known_type (Where.type w))
        [basic "and" "name" "like" (VString "a%")] = true ->
      exists predicate,
        compile name_like (constructor (Some ticking) 0%nat)
        = (Return predicate, constructor (Some ticking) 0%nat))
  /\ (forall predicate st',
        compile name_like (constructor (Some ticking) 0%nat)
        = (Return predicate, st') ->
        forallb (fun w => known_type (Where.type w))
          [basic "and" "name" "like" (VString "a%")] = true
        /\ st' = constructor (Some ticking) 0%nat).
Proof.
  split; [reflexivity|].
  apply (compile_succeeds_iff_kinds_known nat name_like). reflexivity.
Defined.

Lemma unknown_type_rejected_witness :
  (Query.wheres
     (Query.make
        (Some [basic "and" "age" ">" (num 1);
               Where.make "Between" "and" "age" "" VUndefined [num 1; num 9];
               basic "or" "age" "=" (num 0)]))
   = Some ([basic "and" "age" ">" (num 1)]
           ++ Where.make "Between" "and" "age" "" VUndefined [num 1; num 9]
           :: [basic "or" "age" "=" (num 0)])%list
   /\ forallb (fun w => known_type (Where.type w))
        [basic "and" "age" ">" (num 1)] = true
   /\ known_type
        (Where.type
           (Where.make "Between" "and" "age" "" VUndefined [num 1; num 9]))
      = false)
  /\ compile
       (Query.make
          (Some [basic "and" "age" ">" (num 1);
                 Where.make "Between" "and" "age" "" VUndefined [num 1; num 9];
                 basic "or" "age" "=" (num 0)]))
       (constructor (Some ticking) 0%nat)
     = (Throw TypeError,
        log (constructor (Some ticking) 0%nat) (not_defined "Between")).
Proof.
  split.
  - repeat split.
  - apply (unknown_type_rejected nat _ [basic "and" "age" ">" (num 1)]
             [basic "or" "age" "=" (num 0)]
             (Where.make "Between" "and" "age" "" VUndefined [num 1; num 9]));
      reflexivity.
Defined.

(** X3: when compileWheresToArray returns, the clause list has one clause
    per descriptor, in the descriptors' order, each carrying its
    descriptor's connective and the callback its kind's compiler method
    built; the state is left as it was. *)
Theorem compileWheresToArray_keeps_order :
  forall (W : Type) (query : Query.t) (st st' : State W)
         (clauses : list Clause),
    compileWheresToArray query st = (Return clauses, st') ->
    exists wheres,
      Query.wheres query = Some wheres
      /\ Forall2 (built_from query) wheres clauses
      /\ map boolean clauses = map Where.boolean wheres
      /\ length clauses = length wheres
      /\ st' = st.
Proof.
  intros W query st st' clauses. unfold compileWheresToArray.
  destruct (Query.wheres query) as [ws|]; [|discriminate].
  intros E. exists ws. split; [reflexivity|].
  pose proof (array_map_success query ws st clauses st' E) as K.
  destruct (array_map_known (W:=W) query ws K) as (cs & HF & Hrun).
  rewrite Hrun in E. injection E as <- <-.
  split; [exact HF|].
  assert (Hb : map boolean cs = map Where.boolean ws).
  { clear Hrun K. induction HF as [|w c ws cs (compiler & _ & ->) _ IH].
    - reflexivity.
    - cbn [map boolean]. now rewrite IH. }
  split; [exact Hb|]. split; [|reflexivity].
  now rewrite <- (length_map boolean), Hb, length_map.
Qed.

Lemma compileWheresToArray_keeps_order_witness :
  compileWheresToArray active_adult (constructor (Some ticking) 0%nat)
  = (Return
       [mkClause "and"
          (whereBasic active_adult
             (basic "and" "status" "=" (VString "active")));
        mkClause "and"
          (whereBasic active_adult (basic "and" "age" ">=" (num 18)))],
     constructor (Some ticking) 0%nat)
  /\ exists wheres,
       Query.wheres active_adult = Some wheres
       /\ Forall2 (built_from active_adult) wheres
            [mkClause "and"
               (whereBasic (W:=nat) active_adult
                  (basic "and" "status" "=" (VString "active")));
             mkClause "and"
               (whereBasic active_adult (basic "and" "age" ">=" (num 18)))]
       /\ map boolean
            [mkClause "and"
               (whereBasic (W:=nat) active_adult
                  (basic "and" "status" "=" (VString "active")));
             mkClause "and"
               (whereBasic active_adult (basic "and" "age" ">=" (num 18)))]
          = map Where.boolean wheres
       /\ length
            [mkClause "and"
               (whereBasic (W:=nat) active_adult
                  (basic "and" "status" "=" (VString "active")));
             mkClause "and"
               (whereBasic active_adult (basic "and" "age" ">=" (num 18)))]
          = length wheres
       /\ constructor (Some ticking) 0%nat = constructor (Some ticking) 0%nat.
Proof.
  split; [reflexivity|].
  apply (compileWheresToArray_keeps_order nat active_adult
           (constructor (Some ticking) 0%nat)).
  reflexivity.
Defined.

(** X5: when the resolver has no effect on the caller's data, invoking a
    compiled predicate leaves the whole state as it was, whether it returns
    or throws; so invoking it again gives the same answer. *)
Theorem predicate_pure_when_resolver_pure :
  forall (W : Type) (query : Query.t) (st st0 : State W)
         (predicate : Predicate),
    compile query st = (Return predicate, st0) ->
    forall st' : State W,
      pure (columnResolver st') ->
      snd (predicate st') = st'
      /\ predicate (snd (predicate st')) = predicate st'.
Proof.
  intros W query st st0 predicate Hc st' Hp.
  assert (E : snd (predicate st') = st').
  { destruct (compile_cases query st predicate st0 Hc)
      as [-> | (ws & cs & _ & HF & ->)].
    - reflexivity.
    - destruct (array_reduce_built query ws cs HF VNull st') as [names E].
      unfold evaluateWhereClauses. rewrite E. now apply resolve_all_pure. }
  split; [exact E | now rewrite E].
Qed.

Lemma predicate_pure_when_resolver_pure_witness :
  (compile active_adult (constructor (Some (fixed (person "active" 20))) tt)
   = (Return
        (evaluateWhereClauses active_adult
           [mkClause "and"
              (whereBasic active_adult
                 (basic "and" "status" "=" (VString "active")));
            mkClause "and"
              (whereBasic active_adult (basic "and" "age" ">=" (num 18)))]),
      constructor (Some (fixed (person "active" 20))) tt)
   /\ pure (columnResolver
              (constructor (Some (fixed (person "active" 20))) tt)))
  /\ snd (evaluateWhereClauses active_adult
            [mkClause "and"
               (whereBasic active_adult
                  (basic "and" "status" "=" (VString "active")));
             mkClause "and"
               (whereBasic active_adult (basic "and" "age" ">=" (num 18)))]
            (constructor (Some (fixed (person "active" 20))) tt))
     = constructor (Some (fixed (person "active" 20))) tt.
Proof.
  assert (P : pure (columnResolver
                      (constructor (Some (fixed (person "active" 20))) tt))).
  { intros name w. reflexivity. }
  split.
  - split; [reflexivity | exact P].
  - apply (predicate_pure_when_resolver_pure unit active_adult
             (constructor (Some (fixed (person "active" 20))) tt)
             (constructor (Some (fixed (person "active" 20))) tt) _
             eq_refl _ P).
Defined.

(** X6: the predicate compiled from well-formed descriptors whose later
    connectives are "and" or "or" returns a boolean: the truth of the first
    descriptor on the value read for its column, joined from left to right
    with the truth of each later descriptor on the value read for its
    column, the columns being read one after the other in clause order.
    So [status = "active" and age >= 18] is false at age 17 and true at
    age 18, and [id = 9007199254740992] is true of the string
    "9007199254740993", which converts to that double. *)
Theorem predicate_denotation :
  (forall (W : Type) (query : Query.t) (first : Where.t)
          (rest : list Where.t),
      Query.wheres query = Some (first :: rest) ->
      forallb well_formed (first :: rest) = true ->
      Forall (fun w => Where.boolean w = "and" \/ Where.boolean w = "or")
        rest ->
      exists predicate,
        (forall st : State W, compile query st = (Return predicate, st))
        /\ forall st : State W,
             predicate st
             = (Return
                  (VBool
                     (join (holds first (resolve st (Where.column first)))
                        (steps rest
                           (after_resolve st (Where.column first))))),
                resolve_all (map Where.column (first :: rest)) st))
  /\ (exists predicate,
        (forall st : State nat,
            compile active_adult st = (Return predicate, st))
        /\ predicate (constructor (Some (counting (person "active" 17))) 0%nat)
           = (Return (VBool false),
              mkState (counting (person "active" 17)) 2%nat [])
        /\ predicate (constructor (Some (counting (person "active" 18))) 0%nat)
           = (Return (VBool true),
              mkState (counting (person "active" 18)) 2%nat [])
        /\ predicate (constructor (Some (counting (person "idle" 18))) 0%nat)
           = (Return (VBool false),
              mkState (counting (person "idle" 18)) 2%nat []))
  /\ (exists predicate,
        (forall st : State unit,
            compile
              (Query.make
                 (Some [basic "and" "id" "=" (num 9007199254740992)])) st
            = (Return predicate, st))
        /\ predicate
             (constructor
                (Some (fixed (every_column (VString "9007199254740993")))) tt)
           = (Return (VBool true),
              constructor
                (Some (fixed (every_column (VString "9007199254740993"))))
                tt)).
Proof.
  split; [|split].
  2: { eexists. split; [reflexivity|].
       split; [|split]; vm_compute; reflexivity. }
  2: { eexists. split; [reflexivity|]. vm_compute. reflexivity. }
  intros W query first rest Hw Hwf Hc.
  destruct (compile_steps (W:=W) query (first :: rest) Hw) as (p & Hp & Hrun);
    [discriminate | exact Hwf |].
  exists p. split; [exact Hp|]. intros st. rewrite Hrun.
  cbn [steps]. rewrite combine_values_first, combine_values_join; [reflexivity|].
  now apply (steps_connectives (fun c => c = "and" \/ c = "or")).
Qed.

Lemma predicate_denotation_witness :
  (Query.wheres active_adult
   = Some (basic "and" "status" "=" (VString "active")
           :: [basic "and" "age" ">=" (num 18)])
   /\ forallb well_formed
        (basic "and" "status" "=" (VString "active")
         :: [basic "and" "age" ">=" (num 18)]) = true
   /\ Forall (fun w => Where.boolean w = "and" \/ Where.boolean w = "or")
        [basic "and" "age" ">=" (num 18)])
  /\ exists predicate,
       (forall st : State nat, compile active_adult st = (Return predicate, st))
       /\ forall st : State nat,
            predicate st
            = (Return
                 (VBool
                    (join
                       (holds (basic "and" "status" "=" (VString "active"))
                          (resolve st
                             (Where.column
                                (basic "and" "status" "=" (VString "active")))))
                       (steps [basic "and" "age" ">=" (num 18)]
                          (after_resolve st
                             (Where.column
                                (basic "and" "status" "="
                                   (VString "active"))))))),
               resolve_all
                 (map Where.column
                    (basic "and" "status" "=" (VString "active")
                     :: [basic "and" "age" ">=" (num 18)])) st).
Proof.
  assert (H : Forall
                (fun w => Where.boolean w = "and" \/ Where.boolean w = "or")
                [basic "and" "age" ">=" (num 18)]).
  { constructor; [left; reflexivity | constructor]. }
  split.
  - split; [reflexivity|]. split; [reflexivity | exact H].
  - apply (proj1 predicate_denotation nat active_adult);
      [reflexivity.. | exact H].
Defined.

(** X7: when every later connective is "and", the predicate returns [true]
    exactly when every clause's evaluator returned [true]; the evaluators run
    one after the other, each in the state the one before left. *)
Theorem all_and_is_conjunction :
  forall (W : Type) (query : Query.t) (first : string * Evaluator)
         (rest : list (string * Evaluator)) (st st' : State W)
         (bs : list bool),
    Forall (fun c => fst c = "and") rest ->
    runs (first :: rest) st bs st' ->
    evaluateWhereClauses query (map clause_of (first :: rest)) st
    = (Return (VBool (forallb (fun b => b) bs)), st').
Proof.
  intros W query first rest st st' bs Hc Hr.
  pose proof (runs_length _ _ _ _ Hr) as L.
  destruct bs as [|b bs]; [discriminate|]. cbn [length] in L.
  rewrite (evaluateWhereClauses_runs query first rest st b bs st'); trivial.
  - rewrite join_and.
    + rewrite forallb_snd_combine; [reflexivity|].
      rewrite length_map. congruence.
    + apply (Forall_fst_combine (fun c => c = "and")). now apply Forall_map.
  - eapply Forall_impl; [|exact Hc]. intros c H. now left.
Qed.

Lemma all_and_is_conjunction_witness :
  (Forall (fun c : string * @Evaluator nat => fst c = "and")
     [("and", reads "age" (fun v => greater_equal v (num 18)))]
   /\ runs
        [("and", reads "status" (fun v => loose_equals v (VString "active")));
         ("and", reads "age" (fun v => greater_equal v (num 18)))]
        (constructor (Some (counting (person "active" 17))) 0%nat)
        [true; false]
        (mkState (counting (person "active" 17)) 2%nat []))
  /\ evaluateWhereClauses (Query.make None)
       (map clause_of
          [("and", reads "status" (fun v => loose_equals v (VString "active")));
           ("and", reads "age" (fun v => greater_equal v (num 18)))])
       (constructor (Some (counting (person "active" 17))) 0%nat)
     = (Return (VBool (forallb (fun b => b) [true; false])),
        mkState (counting (person "active" 17)) 2%nat []).
Proof.
  assert (H : Forall (fun c : string * @Evaluator nat => fst c = "and")
                [("and", reads "age" (fun v => greater_equal v (num 18)))]).
  { constructor; [reflexivity | constructor]. }
  assert (R : runs
                [("and", reads "status"
                           (fun v => loose_equals v (VString "active")));
                 ("and", reads "age" (fun v => greater_equal v (num 18)))]
                (constructor (Some (counting (person "active" 17))) 0%nat)
                [true; false]
                (mkState (counting (person "active" 17)) 2%nat [])).
  { eapply runs_cons; [reflexivity|].
    eapply runs_cons; [reflexivity|]. apply runs_nil. }
  split.
  - split; [exact H | exact R].
  - apply (all_and_is_conjunction nat (Query.make None) _ _ _ _ _ H R).
Defined.

(** X8: when every later connective is "or", the predicate returns [true]
    exactly when some clause's evaluator returned [true]; every evaluator
    runs, each in the state the one before left. *)
Theorem all_or_is_disjunction :
  forall (W : Type) (query : Query.t) (first : string * Evaluator)
         (rest : list (string * Evaluator)) (st st' : State W)
         (bs : list bool),
    Forall (fun c => fst c = "or") rest ->
    runs (first :: rest) st bs st' ->
    evaluateWhereClauses query (map clause_of (first :: rest)) st
    = (Return (VBool (existsb (fun b => b) bs)), st').
Proof.
  intros W query first rest st st' bs Hc Hr.
  pose proof (runs_length _ _ _ _ Hr) as L.
  destruct bs as [|b bs]; [discriminate|]. cbn [length] in L.
  rewrite (evaluateWhereClauses_runs query first rest st b bs st'); trivial.
  - rewrite join_or.
    + rewrite existsb_snd_combine; [reflexivity|].
      rewrite length_map. congruence.
    + apply (Forall_fst_combine (fun c => c = "or")). now apply Forall_map.
  - eapply Forall_impl; [|exact Hc]. intros c H. now right.
Qed.

Lemma all_or_is_disjunction_witness :
  (Forall (fun c : string * @Evaluator nat => fst c = "or")
     [("or", reads "status" (fun v => loose_equals v (VString "pending")))]
   /\ runs
        [("and", reads "status" (fun v => loose_equals v (VString "active")));
         ("or", reads "status" (fun v => loose_equals v (VString "pending")))]
        (constructor (Some (counting (person "pending" 17))) 0%nat)
        [false; true]
        (mkState (counting (person "pending" 17)) 2%nat []))
  /\ evaluateWhereClauses (Query.make None)
       (map clause_of
          [("and", reads "status" (fun v => loose_equals v (VString "active")));
           ("or", reads "status"
                    (fun v => loose_equals v (VString "pending")))])
       (constructor (Some (counting (person "pending" 17))) 0%nat)
     = (Return (VBool (existsb (fun b => b) [false; true])),
        mkState (counting (person "pending" 17)) 2%nat []).
Proof.
  assert (H : Forall (fun c : string * @Evaluator nat => fst c = "or")
                [("or", reads "status"
                          (fun v => loose_equals v (VString "pending")))]).
  { constructor; [reflexivity | constructor]. }
  assert (R : runs
                [("and", reads "status"
                           (fun v => loose_equals v (VString "active")));
                 ("or", reads "status"
                          (fun v => loose_equals v (VString "pending")))]
                (constructor (Some (counting (person "pending" 17))) 0%nat)
                [false; true]
                (mkState (counting (person "pending" 17)) 2%nat [])).
  { eapply runs_cons; [reflexivity|].
    eapply runs_cons; [reflexivity|]. apply runs_nil. }
  split.
  - split; [exact H | exact R].
  - apply (all_or_is_disjunction nat (Query.make None) _ _ _ _ _ H R).
Defined.

(** X9: connectives have no precedence.  For three clauses joined as
    [a or b and c] whose evaluators return [x], [y] and [z], the predicate
    returns [(x or y) and z], from left to right, and not
    [x or (y and z)]. *)
Theorem connectives_have_no_precedence :
  forall (W : Type) (query : Query.t) (connective : string)
         (a b c : Evaluator) (st st' : State W) (x y z : bool),
    runs [(connective, a); ("or", b); ("and", c)] st [x; y; z] st' ->
    evaluateWhereClauses query
      (map clause_of [(connective, a); ("or", b); ("and", c)]) st
    = (Return (VBool ((x || y) && z)), st').
Proof.
  intros W query connective a b c st st' x y z Hr.
  rewrite (evaluateWhereClauses_runs query _ _ st x [y; z] st'); trivial.
  constructor; [right; reflexivity|].
  constructor; [left; reflexivity | constructor].
Qed.

Lemma connectives_have_no_precedence_witness :
  runs
    [("and", reads "status" (fun v => loose_equals v (VString "active")));
     ("or", reads "status" (fun v => loose_equals v (VString "pending")));
     ("and", reads "age" (fun v => greater_equal v (num 18)))]
    (constructor (Some (counting (person "active" 17))) 0%nat)
    [true; false; false]
    (mkState (counting (person "active" 17)) 3%nat [])
  /\ evaluateWhereClauses (Query.make None)
       (map clause_of
          [("and", reads "status" (fun v => loose_equals v (VString "active")));
           ("or", reads "status" (fun v => loose_equals v (VString "pending")));
           ("and", reads "age" (fun v => greater_equal v (num 18)))])
       (constructor (Some (counting (person "active" 17))) 0%nat)
     = (Return (VBool ((true || false) && false)),
        mkState (counting (person "active" 17)) 3%nat []).
Proof.
  assert (R : runs
                [("and", reads "status"
                           (fun v => loose_equals v (VString "active")));
                 ("or", reads "status"
                          (fun v => loose_equals v (VString "pending")));
                 ("and", reads "age" (fun v => greater_equal v (num 18)))]
                (constructor (Some (counting (person "active" 17))) 0%nat)
                [true; false; false]
                (mkState (counting (person "active" 17)) 3%nat [])).
  { eapply runs_cons; [reflexivity|].
    eapply runs_cons; [reflexivity|].
    eapply runs_cons; [reflexivity|]. apply runs_nil. }
  split.
  - exact R.
  - apply (connectives_have_no_precedence nat (Query.make None) _ _ _ _ _ _
             _ _ _ R).
Defined.

(** X10: whatever the connectives, the predicate compiled from a non-empty
    list of well-formed descriptors returns a boolean or [undefined]; it
    never returns the [null] the fold starts from. *)
Theorem predicate_result_kind :
  forall (W : Type) (query : Query.t) (wheres : list Where.t),
    Query.wheres query = Some wheres -> wheres <> [] ->
    forallb well_formed wheres = true ->
    exists predicate,
      (forall st : State W, compile query st = (Return predicate, st))
      /\ forall st : State W,
         exists result,
           fst (predicate st) = Return result
           /\ boolean_or_undefined result
           /\ result <> VNull.
Proof.
  intros W query wheres Hw Hne Hwf.
  destruct (compile_steps (W:=W) query wheres Hw Hne Hwf) as (p & Hp & Hrun).
  exists p. split; [exact Hp|]. intros st. rewrite Hrun.
  eexists. split; [reflexivity|].
  assert (K : boolean_or_undefined (combine_values VNull (steps wheres st))).
  { destruct wheres as [|w rest]; [congruence|]. cbn [steps].
    rewrite combine_values_first. apply combine_values_kind.
    right. eauto. }
  split; [exact K|].
  destruct K as [-> | [b ->]]; discriminate.
Qed.

Lemma predicate_result_kind_witness :
  (Query.wheres active_adult
   = Some [basic "and" "status" "=" (VString "active");
           basic "and" "age" ">=" (num 18)]
   /\ [basic "and" "status" "=" (VString "active");
       basic "and" "age" ">=" (num 18)] <> []
   /\ forallb well_formed
        [basic "and" "status" "=" (VString "active");
         basic "and" "age" ">=" (num 18)] = true)
  /\ exists predicate,
       (forall st : State nat, compile active_adult st = (Return predicate, st))
       /\ forall st : State nat,
          exists result,
            fst (predicate st) = Return result
            /\ boolean_or_undefined result
            /\ result <> VNull.
Proof.
  split.
  - split; [reflexivity|]. split; [discriminate | reflexivity].
  - apply (predicate_result_kind nat active_adult
             [basic "and" "status" "=" (VString "active");
              basic "and" "age" ">=" (num 18)]);
      [reflexivity | discriminate | reflexivity].
Defined.

(** X11: a last clause whose connective is neither "and" nor "or" (the
    comparison is case-sensitive) makes the predicate return [undefined],
    whatever the clauses say; its evaluator is still invoked. *)
Theorem unknown_connective_gives_undefined :
  forall (W : Type) (query : Query.t) (before : list Where.t)
         (last : Where.t),
    Query.wheres query = Some (before ++ [last])%list ->
    before <> [] ->
    forallb well_formed (before ++ [last])%list = true ->
    Where.boolean last <> "and" ->
    Where.boolean last <> "or" ->
    exists predicate,
      (forall st : State W, compile query st = (Return predicate, st))
      /\ forall st : State W,
           predicate st
           = (Return VUndefined,
              resolve_all (map Where.column (before ++ [last])%list) st).
Proof.
  intros W query before last Hw Hne Hwf Hand Hor.
  destruct (compile_steps (W:=W) query (before ++ [last])%list Hw)
    as (p & Hp & Hrun); [now destruct before | exact Hwf |].
  exists p. split; [exact Hp|]. intros st. rewrite Hrun. f_equal. f_equal.
  rewrite <- steps_app. unfold combine_values. rewrite fold_left_app.
  fold (combine_values VNull (steps before st)).
  assert (K : boolean_or_undefined (combine_values VNull (steps before st))).
  { destruct before as [|w rest]; [congruence|]. cbn [steps].
    rewrite combine_values_first. apply combine_values_kind.
    right. eauto. }
  cbn [steps fold_left fst snd]. unfold combine_value.
  apply String.eqb_neq in Hand, Hor. rewrite Hand, Hor.
  now destruct K as [-> | [b ->]].
Qed.

Lemma unknown_connective_gives_undefined_witness :
  (Query.wheres
     (Query.make
        (Some [basic "and" "status" "=" (VString "active");
               basic "AND" "age" ">=" (num 18)]))
   = Some ([basic "and" "status" "=" (VString "active")]
           ++ [basic "AND" "age" ">=" (num 18)])%list
   /\ [basic "and" "status" "=" (VString "active")] <> []
   /\ forallb well_formed
        ([basic "and" "status" "=" (VString "active")]
         ++ [basic "AND" "age" ">=" (num 18)])%list = true
   /\ Where.boolean (basic "AND" "age" ">=" (num 18)) <> "and"
   /\ Where.boolean (basic "AND" "age" ">=" (num 18)) <> "or")
  /\ exists predicate,
       (forall st : State nat,
           compile
             (Query.make
                (Some [basic "and" "status" "=" (VString "active");
                       basic "AND" "age" ">=" (num 18)])) st
           = (Return predicate, st))
       /\ forall st : State nat,
            predicate st
            = (Return VUndefined,
               resolve_all
                 (map Where.column
                    ([basic "and" "status" "=" (VString "active")]
                     ++ [basic "AND" "age" ">=" (num 18)])%list) st).
Proof.
  split.
  - split; [reflexivity|]. split; [discriminate|].
    split; [reflexivity|]. split; discriminate.
  - apply (unknown_connective_gives_undefined nat
             (Query.make
                (Some [basic "and" "status" "=" (VString "active");
                       basic "AND" "age" ">=" (num 18)]))
             [basic "and" "status" "=" (VString "active")]
             (basic "AND" "age" ">=" (num 18)));
      [reflexivity | discriminate | reflexivity | discriminate | discriminate].
Defined.

(** X12: a Basic clause with an unknown operator, wherever it stands among
    clauses of known kinds, passes compilation unnoticed; every invocation
    of the predicate then throws a TypeError at that clause, after the
    evaluators of the well-formed clauses before it have run, and without
    running any evaluator after it. *)
Theorem missing_evaluator_aborts :
  forall (W : Type) (query : Query.t) (before after : list Where.t)
         (where_ : Where.t),
    Query.wheres query = Some (before ++ where_ :: after)%list ->
    forallb well_formed before = true ->
    Where.type where_ = "Basic" ->
    known_operator (Where.operator where_) = false ->
    forallb (fun w => known_type (Where.type w)) after = true ->
    exists predicate,
      (forall st : State W, compile query st = (Return predicate, st))
      /\ forall st : State W,
           predicate st
           = (Throw TypeError, resolve_all (map Where.column before) st).
Proof.
  intros W query before after w Hw Hwf Ht Hu Ha.
  assert (K : forallb (fun w => known_type (Where.type w))
                (before ++ w :: after)%list = true).
  { rewrite forallb_app, (well_formed_known _ Hwf). cbn [forallb andb].
    now rewrite Ht, Ha. }
  destruct (array_map_known (W:=W) query _ K) as (cs & HF & Hrun).
  exists (evaluateWhereClauses query cs). split.
  - intros st. rewrite (compile_run query _ st Hw) by (now destruct before).
    rewrite Hrun.
    apply Forall2_length in HF. rewrite length_app in HF. cbn [length] in HF.
    destruct cs; [cbn [length] in HF; lia | reflexivity].
  - intros st.
    apply Forall2_app_inv_l in HF as (cs1 & cs2 & HF1 & HF2 & ->).
    inversion HF2 as [|w' c ws' cs3 (compiler & Hm & Hc) _]; subst.
    rewrite Ht in Hm.
    change (method (W:=W) ("where" ++ "Basic"))
      with (Some (whereBasic (W:=W))) in Hm.
    injection Hm as <-. rewrite (whereBasic_unknown query w Hu).
    unfold evaluateWhereClauses.
    rewrite array_reduce_app, (array_reduce_steps query before cs1 HF1 Hwf).
    now rewrite array_reduce_cons, combine_undefined.
Qed.

Lemma missing_evaluator_aborts_witness :
  (Query.wheres
     (Query.make
        (Some [basic "and" "age" ">" (num 1);
               basic "and" "name" "like" (VString "a%");
               basic "or" "age" "=" (num 0)]))
   = Some ([basic "and" "age" ">" (num 1)]
           ++ basic "and" "name" "like" (VString "a%")
           :: [basic "or" "age" "=" (num 0)])%list
   /\ forallb well_formed [basic "and" "age" ">" (num 1)] = true
   /\ Where.type (basic "and" "name" "like" (VString "a%")) = "Basic"
   /\ known_operator
        (Where.operator (basic "and" "name" "like" (VString "a%"))) = false
   /\ forallb (fun w => known_type (Where.type w))
        [basic "or" "age" "=" (num 0)] = true)
  /\ exists predicate,
       (forall st : State nat,
           compile
             (Query.make
                (Some [basic "and" "age" ">" (num 1);
                       basic "and" "name" "like" (VString "a%");
                       basic "or" "age" "=" (num 0)])) st
           = (Return predicate, st))
       /\ forall st : State nat,
            predicate st
            = (Throw TypeError,
               resolve_all
                 (map Where.column [basic "and" "age" ">" (num 1)]) st).
Proof.
  split.
  - repeat split.
  - apply (missing_evaluator_aborts nat _ [basic "and" "age" ">" (num 1)]
             [basic "or" "age" "=" (num 0)]
             (basic "and" "name" "like" (VString "a%")));
      reflexivity.
Defined.

(** X13: over the same column and value, the evaluators of the operators
    [!=] and [<>] return the same result, the negation of what the
    evaluator of [=] returns. *)
Theorem not_equal_negates_equal :
  forall (W : Type) (query : Query.t) (equal different : Where.t)
         (st : State W),
    Where.operator equal = "=" ->
    Where.operator different = "!=" \/ Where.operator different = "<>" ->
    Where.column different = Where.column equal ->
    Where.value different = Where.value equal ->
    exists (is_equal is_different : Evaluator) (b : bool),
      whereBasic query equal = Function is_equal
      /\ whereBasic query different = Function is_different
      /\ is_equal st = (Return b, after_resolve st (Where.column equal))
      /\ is_different st
         = (Return (negb b), after_resolve st (Where.column equal)).
Proof.
  intros W query equal different st He Hd Hc Hv.
  exists (reads (Where.column equal)
            (fun v => loose_equals v (Where.value equal))),
         (reads (Where.column different)
            (fun v => loose_not_equals v (Where.value different))),
         (loose_equals (resolve st (Where.column equal)) (Where.value equal)).
  split.
  { apply whereBasic_reads. now rewrite He. }
  split.
  { apply whereBasic_reads. now destruct Hd as [-> | ->]. }
  rewrite !reads_run, Hc, Hv. split; reflexivity.
Qed.

Lemma not_equal_negates_equal_witness :
  (Where.operator (basic "and" "age" "=" (num 30)) = "="
   /\ (Where.operator (basic "or" "age" "<>" (num 30)) = "!="
       \/ Where.operator (basic "or" "age" "<>" (num 30)) = "<>")
   /\ Where.column (basic "or" "age" "<>" (num 30))
      = Where.column (basic "and" "age" "=" (num 30))
   /\ Where.value (basic "or" "age" "<>" (num 30))
      = Where.value (basic "and" "age" "=" (num 30)))
  /\ exists (is_equal is_different : Evaluator) (b : bool),
       whereBasic (Query.make None) (basic "and" "age" "=" (num 30))
       = Function is_equal
       /\ whereBasic (Query.make None) (basic "or" "age" "<>" (num 30))
          = Function is_different
       /\ is_equal (constructor (Some ticking) 30%nat)
          = (Return b,
             after_resolve (constructor (Some ticking) 30%nat)
               (Where.column (basic "and" "age" "=" (num 30))))
       /\ is_different (constructor (Some ticking) 30%nat)
          = (Return (negb b),
             after_resolve (constructor (Some ticking) 30%nat)
               (Where.column (basic "and" "age" "=" (num 30)))).
Proof.
  split.
  - split; [reflexivity|]. split; [right; reflexivity|].
    split; reflexivity.
  - apply (not_equal_negates_equal nat (Query.make None)
             (basic "and" "age" "=" (num 30))
             (basic "or" "age" "<>" (num 30)));
      [reflexivity | right; reflexivity | reflexivity | reflexivity].
Defined.

(** X14: when the resolver gives [undefined] for the column, the evaluator
    of every ordering operator ([>], [>=], [<], [<=]) returns [false],
    whatever the clause's value: [<] and [>=] are then both false. *)
Theorem ordering_fails_on_undefined :
  forall (W : Type) (query : Query.t) (where_ : Where.t) (st : State W),
    In (Where.operator where_) [">"; ">="; "<"; "<="] ->
    resolve st (Where.column where_) = VUndefined ->
    exists evaluator : Evaluator,
      whereBasic query where_ = Function evaluator
      /\ evaluator st
         = (Return false, after_resolve st (Where.column where_)).
Proof.
  intros W query w st Hop Hu.
  destruct (IsLessThan_undefined (Where.value w)) as [L R].
  cbn [In] in Hop. destruct Hop as [E|[E|[E|[E|[]]]]]; symmetry in E.
  - exists (reads (Where.column w) (fun v => greater_than v (Where.value w))).
    split; [apply whereBasic_reads; now rewrite E|].
    rewrite reads_run, Hu. unfold greater_than. now rewrite R.
  - exists (reads (Where.column w) (fun v => greater_equal v (Where.value w))).
    split; [apply whereBasic_reads; now rewrite E|].
    rewrite reads_run, Hu. unfold greater_equal. now rewrite L.
  - exists (reads (Where.column w) (fun v => less_than v (Where.value w))).
    split; [apply whereBasic_reads; now rewrite E|].
    rewrite reads_run, Hu. unfold less_than. now rewrite L.
  - exists (reads (Where.column w) (fun v => less_equal v (Where.value w))).
    split; [apply whereBasic_reads; now rewrite E|].
    rewrite reads_run, Hu. unfold less_equal. now rewrite R.
Qed.

Lemma ordering_fails_on_undefined_witness :
  (In (Where.operator (basic "and" "height" ">=" (num 0)))
      [">"; ">="; "<"; "<="]
   /\ resolve (constructor (Some (fixed (person "active" 20))) tt)
        (Where.column (basic "and" "height" ">=" (num 0)))
      = VUndefined)
  /\ exists evaluator : Evaluator,
       whereBasic (Query.make None) (basic "and" "height" ">=" (num 0))
       = Function evaluator
       /\ evaluator (constructor (Some (fixed (person "active" 20))) tt)
          = (Return false,
             after_resolve (constructor (Some (fixed (person "active" 20))) tt)
               (Where.column (basic "and" "height" ">=" (num 0)))).
Proof.
  split.
  - split; [right; left; reflexivity | reflexivity].
  - apply (ordering_fails_on_undefined unit (Query.make None)
             (basic "and" "height" ">=" (num 0)));
      [right; left; reflexivity | reflexivity].
Defined.

(** X15: with an empty values list, the In evaluator returns [false] and the
    NotIn evaluator [true], whatever the resolver gives. *)
Theorem empty_values_list :
  forall (W : Type) (query : Query.t) (where_ : Where.t) (st : State W),
    Where.values where_ = [] ->
    exists is_in not_in : Evaluator,
      whereIn query where_ = Function is_in
      /\ whereNotIn query where_ = Function not_in
      /\ is_in st = (Return false, after_resolve st (Where.column where_))
      /\ not_in st = (Return true, after_resolve st (Where.column where_)).
Proof.
  intros W query w st Hv.
  eexists (reads _ _), (reads _ _).
  split; [reflexivity|]. split; [reflexivity|].
  rewrite !reads_run, Hv. split; reflexivity.
Qed.

Lemma empty_values_list_witness :
  Where.values (where_in "and" "role" []) = []
  /\ exists is_in not_in : Evaluator,
       whereIn (Query.make None) (where_in "and" "role" []) = Function is_in
       /\ whereNotIn (Query.make None) (where_in "and" "role" [])
          = Function not_in
       /\ is_in (constructor (Some ticking) 0%nat)
          = (Return false,
             after_resolve (constructor (Some ticking) 0%nat)
               (Where.column (where_in "and" "role" [])))
       /\ not_in (constructor (Some ticking) 0%nat)
          = (Return true,
             after_resolve (constructor (Some ticking) 0%nat)
               (Where.column (where_in "and" "role" []))).
Proof.
  split; [reflexivity|].
  apply (empty_values_list nat (Query.make None) (where_in "and" "role" [])).
  reflexivity.
Defined.

(** X16: when the value the resolver gives has the same type as [x], the In
    evaluator over the one-element list [[x]] and the Basic [=] evaluator
    against [x] return the same result: the two kinds of clause differ only
    across types. *)
Theorem in_singleton_is_equality_on_same_type :
  forall (W : Type) (query : Query.t) (one_of equal : Where.t) (x : Value)
         (st : State W),
    Where.values one_of = [x] ->
    Where.operator equal = "=" ->
    Where.value equal = x ->
    Where.column equal = Where.column one_of ->
    same_type (resolve st (Where.column one_of)) x = true ->
    exists (is_in is_equal : Evaluator) (b : bool),
      whereIn query one_of = Function is_in
      /\ whereBasic query equal = Function is_equal
      /\ is_in st = (Return b, after_resolve st (Where.column one_of))
      /\ is_equal st = (Return b, after_resolve st (Where.column one_of)).
Proof.
  intros W query one_of equal x st Hv Hop Hx Hc Hs.
  exists (reads (Where.column one_of)
            (fun v => greater_equal (num (indexOf (Where.values one_of) v))
                        (num 0))),
         (reads (Where.column equal)
            (fun v => loose_equals v (Where.value equal))),
         (strict_equals (resolve st (Where.column one_of)) x).
  split; [reflexivity|]. split.
  { apply whereBasic_reads. now rewrite Hop. }
  rewrite !reads_run, Hc, Hx, indexOf_found, Hv. split.
  - unfold member. cbn [existsb].
    now rewrite orb_false_r, strict_equals_sym.
  - now rewrite loose_equals_same_type.
Qed.

Lemma in_singleton_is_equality_on_same_type_witness :
  (Where.values (where_in "and" "status" [VString "active"])
   = [VString "active"]
   /\ Where.operator (basic "and" "status" "=" (VString "active")) = "="
   /\ Where.value (basic "and" "status" "=" (VString "active"))
      = VString "active"
   /\ Where.column (basic "and" "status" "=" (VString "active"))
      = Where.column (where_in "and" "status" [VString "active"])
   /\ same_type
        (resolve (constructor (Some (fixed (person "active" 20))) tt)
           (Where.column (where_in "and" "status" [VString "active"])))
        (VString "active") = true)
  /\ exists (is_in is_equal : Evaluator) (b : bool),
       whereIn (Query.make None) (where_in "and" "status" [VString "active"])
       = Function is_in
       /\ whereBasic (Query.make None)
            (basic "and" "status" "=" (VString "active"))
          = Function is_equal
       /\ is_in (constructor (Some (fixed (person "active" 20))) tt)
          = (Return b,
             after_resolve (constructor (Some (fixed (person "active" 20))) tt)
               (Where.column (where_in "and" "status" [VString "active"])))
       /\ is_equal (constructor (Some (fixed (person "active" 20))) tt)
          = (Return b,
             after_resolve (constructor (Some (fixed (person "active" 20))) tt)
               (Where.column (where_in "and" "status" [VString "active"]))).
Proof.
  split.
  - repeat split.
  - apply (in_singleton_is_equality_on_same_type unit (Query.make None)
             (where_in "and" "status" [VString "active"])
             (basic "and" "status" "=" (VString "active"))
             (VString "active"));
      reflexivity.
Defined.

(** X17: a grammar constructed without a resolver sees [null] in every
    column.  The predicate of well-formed descriptors (later connectives
    "and" or "or") is then the join of what each descriptor says of [null],
    and invoking it leaves the state as it was.  So a Null clause is true, a
    NotNull clause and [x = 0] are false, and [x >= 0] and [x >= "1e-400"]
    are true ([null] compares as 0, and the string underflows to 0). *)
Theorem default_resolver_gives_null :
  (forall (W : Type) (query : Query.t) (first : Where.t)
          (rest : list Where.t) (data : W),
      Query.wheres query = Some (first :: rest) ->
      forallb well_formed (first :: rest) = true ->
      Forall (fun w => Where.boolean w = "and" \/ Where.boolean w = "or")
        rest ->
      exists predicate,
        compile query (constructor None data)
        = (Return predicate, constructor None data)
        /\ predicate (constructor None data)
           = (Return
                (VBool
                   (join (holds first VNull)
                      (map (fun w => (Where.boolean w, holds w VNull)) rest))),
              constructor None data))
  /\ (forall (where_ : Where.t) (expected : bool),
        In (where_, expected)
           [(where_null "Null" "and" "x", true);
            (where_null "NotNull" "and" "x", false);
            (basic "and" "x" "=" (num 0), false);
            (basic "and" "x" ">=" (num 0), true);
            (basic "and" "x" ">=" (VString "1e-400"), true);
            (basic "and" "x" "<" (num 1), true);
            (where_in "and" "x" [num 0; VString ""], false);
            (where_in "and" "x" [num 0; VNull], true)] ->
        exists predicate,
          compile (Query.make (Some [where_])) (constructor None tt)
          = (Return predicate, constructor None tt)
          /\ predicate (constructor None tt)
             = (Return (VBool expected), constructor None tt)).
Proof.
  split.
  2: { intros w expected H. cbn [In] in H.
       repeat (destruct H as [[= <- <-] | H];
               [eexists; split; [reflexivity | vm_compute; reflexivity]|]).
       destruct H. }
  intros W query first rest data Hw Hwf Hc.
  destruct (compile_steps_pure (W:=W) query (first :: rest) Hw)
    as (p & Hp & Hrun); [discriminate | exact Hwf |].
  exists p. split; [apply Hp|].
  rewrite Hrun by (intros name w; reflexivity).
  cbn [map]. rewrite combine_values_first, combine_values_join; [reflexivity|].
  now apply (Forall_fst_map (fun c => c = "and" \/ c = "or")).
Qed.

Lemma default_resolver_gives_null_witness :
  (Query.wheres active_adult
   = Some (basic "and" "status" "=" (VString "active")
           :: [basic "and" "age" ">=" (num 18)])
   /\ forallb well_formed
        (basic "and" "status" "=" (VString "active")
         :: [basic "and" "age" ">=" (num 18)]) = true
   /\ Forall (fun w => Where.boolean w = "and" \/ Where.boolean w = "or")
        [basic "and" "age" ">=" (num 18)])
  /\ exists predicate,
       compile active_adult (constructor None 3%nat)
       = (Return predicate, constructor None 3%nat)
       /\ predicate (constructor None 3%nat)
          = (Return
               (VBool
                  (join
                     (holds (basic "and" "status" "=" (VString "active")) VNull)
                     (map (fun w => (Where.boolean w, holds w VNull))
                        [basic "and" "age" ">=" (num 18)]))),
             constructor None 3%nat).
Proof.
  assert (H : Forall
                (fun w => Where.boolean w = "and" \/ Where.boolean w = "or")
                [basic "and" "age" ">=" (num 18)]).
  { constructor; [left; reflexivity | constructor]. }
  split.
  - split; [reflexivity|]. split; [reflexivity | exact H].
  - apply (proj1 default_resolver_gives_null nat active_adult);
      [reflexivity.. | exact H].
Defined.

(** X18: with resolvers without effects, the result of the predicate of
    well-formed descriptors depends on the data only through the values of
    the columns the descriptors name: two states whose resolvers agree on
    those columns give the same result. *)
Theorem predicate_reads_named_columns_only :
  forall (W : Type) (query : Query.t) (wheres : list Where.t),
    Query.wheres query = Some wheres -> wheres <> [] ->
    forallb well_formed wheres = true ->
    exists predicate,
      (forall st : State W, compile query st = (Return predicate, st))
      /\ forall st1 st2 : State W,
           pure (columnResolver st1) -> pure (columnResolver st2) ->
           (forall name, In name (map Where.column wheres) ->
                         resolve st1 name = resolve st2 name) ->
           fst (predicate st1) = fst (predicate st2).
Proof.
  intros W query wheres Hw Hne Hwf.
  destruct (compile_steps_pure (W:=W) query wheres Hw Hne Hwf)
    as (p & Hp & Hrun).
  exists p. split; [exact Hp|]. intros st1 st2 H1 H2 Hagree.
  rewrite (Hrun st1 H1), (Hrun st2 H2). cbn [fst]. do 2 f_equal.
  apply map_ext_in. intros w Hin. f_equal. f_equal.
  apply Hagree, in_map, Hin.
Qed.

Lemma predicate_reads_named_columns_only_witness :
  (Query.wheres age_is_30 = Some [basic "and" "age" "=" (num 30)]
   /\ [basic "and" "age" "=" (num 30)] <> []
   /\ forallb well_formed [basic "and" "age" "=" (num 30)] = true)
  /\ exists predicate,
       (forall st : State unit, compile age_is_30 st = (Return predicate, st))
       /\ forall st1 st2 : State unit,
            pure (columnResolver st1) -> pure (columnResolver st2) ->
            (forall name,
                In name (map Where.column [basic "and" "age" "=" (num 30)]) ->
                resolve st1 name = resolve st2 name) ->
            fst (predicate st1) = fst (predicate st2).
Proof.
  split.
  - split; [reflexivity|]. split; [discriminate | reflexivity].
  - apply (predicate_reads_named_columns_only unit age_is_30
             [basic "and" "age" "=" (num 30)]);
      [reflexivity | discriminate | reflexivity].
Defined.

End Grammar.
